(** * GoSense: the generation -> batching -> publication pipeline

    A shallow embedding of [internal/engine]: the types of [types.go], the
    constructors [NewEngine] and [ToEngineConfig], [determineQuality], and the
    goroutines of [Engine.Start] ([generateData], [processBatches],
    [publishWorker] and the orchestrating body of [Start]) as one interleaving
    transition system over the two channels.

    A state holds the two channel buffers, the place where each goroutine
    stands in its code with its local variables, what the publisher has seen,
    and the history of what was built, sent and emitted. A transition is one
    goroutine passing one communication: a [select] taking one of its ready
    cases, a call to the publisher being entered or returning, a line being
    printed, a channel being closed. Which transition comes next is not
    fixed: every interleaving and, where several cases of a [select] are
    ready, every choice among them is a run, as in Go. Time is not
    measured: a ticker may fire at any transition. What the collaborators
    return (the seeder's value, the clock, the random draw, the outcomes of
    [PublishBatch] and [Close]) comes with the event. *)

From Stdlib Require Import ZArith List Bool String Ascii Lia.
From Stdlib Require Import Floats DecimalString DecimalZ.
Import ListNotations.

Local Open Scope string_scope.
Local Open Scope list_scope.
Local Open Scope Z_scope.
Set Warnings "-inexact-float".

(** ** types.go *)

(** [type Quality string] with its four constants. *)
Definition Quality := string.
Definition QualityOK : Quality := "OK".
Definition QualityNoisy : Quality := "NOISY".
Definition QualityPartial : Quality := "PARTIAL".
Definition QualityCorrupt : Quality := "CORRUPT".

(** [time.Time] and [time.Duration], both counted in nanoseconds. *)
Definition Time := Z.
Definition Duration := Z.

(** [SensorData[T]]. *)
Record SensorData (T : Type) : Type := mkSensorData {
  ID : string;
  Timestamp : Time;
  Data : T;
  Quality_ : Quality
}.
Arguments mkSensorData {T}.
Arguments ID {T}.
Arguments Timestamp {T}.
Arguments Data {T}.
Arguments Quality_ {T}.

(** [Config]. [BatchSize] and [MaxWorkers] are Go [int]s. *)
Record Config : Type := mkConfig {
  ProductionRate : Duration;
  BatchSize : Z;
  BatchTimeout : Duration;
  MaxWorkers : Z
}.

(** A Go [error] value, by its message; [None] is [nil]. *)
Definition error := option string.

(** [Engine[T]]. The seeder and the publisher are external collaborators:
    what they return reaches the pipeline as inputs of its transitions, so
    the engine keeps the configuration and the sensor function. *)
Record Engine (T : Type) : Type := mkEngine {
  config : Config;
  function : float -> Time -> T
}.
Arguments mkEngine {T}.
Arguments config {T}.
Arguments function {T}.

(** [NewEngine]: stores its arguments; it has no error result. *)
Definition NewEngine {T : Type} (cfg : Config) (fn : float -> Time -> T)
  : Engine T :=
  mkEngine cfg fn.

(** What the specification asks of a configuration. *)
Definition config_valid (c : Config) : Prop :=
  0 < ProductionRate c /\ 1 <= BatchSize c /\
  0 < BatchTimeout c /\ 1 <= MaxWorkers c.

(** ** config.go *)

(** [EngineConfig], the JSON form: the two durations are strings. *)
Record EngineConfig : Type := mkEngineConfig {
  ec_ProductionRate : string;
  ec_BatchSize : Z;
  ec_BatchTimeout : string;
  ec_MaxWorkers : Z
}.

Inductive result (A : Type) : Type :=
| Ok : A -> result A
| Err : string -> result A.
Arguments Ok {A}.
Arguments Err {A}.

Section ConfigFile.
(** [time.ParseDuration] of the Go library: the duration, or the message of
    its error. *)
Variable ParseDuration : string -> result Duration.

(** [ConfigFile.ToEngineConfig]. *)
Definition ToEngineConfig (c : EngineConfig) : result Config :=
  match ParseDuration (ec_ProductionRate c) with
  | Err e => Err ("invalid production_rate: " ++ e)
  | Ok productionRate =>
    match ParseDuration (ec_BatchTimeout c) with
    | Err e => Err ("invalid batch_timeout: " ++ e)
    | Ok batchTimeout =>
      Ok (mkConfig productionRate (ec_BatchSize c)
                   batchTimeout (ec_MaxWorkers c))
    end
  end.
End ConfigFile.

(** ** engine.go: determineQuality *)

(** [determineQuality], as a function of the draw [r := rand.Float64()].
    The literals are binary64 constants, in Go as here. *)
Definition determineQuality (r : float) : Quality :=
  if (r <? 0.01)%float then QualityCorrupt
  else if (r <? 0.03)%float then QualityPartial
  else if (r <? 0.08)%float then QualityNoisy
  else QualityOK.

(** ** engine.go: the goroutines of Start *)

Definition Batch (T : Type) : Type := list (SensorData T).

(** [make(chan SensorData[T], 100)] and [make(chan []SensorData[T], 10)]. *)
Definition dataChanCap : Z := 100.
Definition batchChanCap : Z := 10.

(** [len] of a slice or of a channel buffer. *)
Definition len {A : Type} (l : list A) : Z := Z.of_nat (List.length l).

(** Go [int] arithmetic (64 bits, two's complement). *)
Definition wrap64 (z : Z) : Z := (z + 2 ^ 63) mod 2 ^ 64 - 2 ^ 63.

(** [fmt.Sprintf("sensor-%d", counter)]. *)
Definition sprintf_d (z : Z) : string := NilEmpty.string_of_int (Z.to_int z).
Definition sensorID (counter : Z) : string := "sensor-" ++ sprintf_d counter.

(** Where each goroutine stands. *)

(** [generateData]: before [time.NewTicker]; at the outer [select]; at the
    inner [select] with the envelope it built; returned. *)
Inductive GenPC (T : Type) : Type :=
| GInit
| GSelect
| GSend (sensorData : SensorData T)
| GDone.
Arguments GInit {T}.
Arguments GSelect {T}.
Arguments GSend {T}.
Arguments GDone {T}.

(** The four inner [select]s of [processBatches] that send [batch], by the
    case of the outer [select] they stand in. *)
Inductive FlushKind : Type :=
| FlushCancel    (* case <-ctx.Done() *)
| FlushClosed    (* case data, ok := <-dataChan, !ok *)
| FlushFull      (* len(batch) >= BatchSize *)
| FlushTimeout.  (* case <-batchTicker.C *)

Inductive BatPC : Type :=
| BInit
| BSelect
| BFlush (k : FlushKind)
| BDone.

(** [publishWorker]: at its [select]; holding a received batch, about to
    call [PublishBatch]; inside [PublishBatch]; back from [PublishBatch]
    with an error, about to print it; returned. *)
Inductive WorkerPC (T : Type) : Type :=
| WSelect
| WCall (b : Batch T)
| WWait
| WPrint (m : string)
| WDone.
Arguments WSelect {T}.
Arguments WCall {T}.
Arguments WWait {T}.
Arguments WPrint {T}.
Arguments WDone {T}.

(** The body of [Start] after the goroutines are spawned. *)
Inductive OrchPC : Type :=
| OWaitCtx       (* <-ctx.Done() *)
| OWaitData      (* dataWG.Wait(); close(dataChan) *)
| OWaitBatch     (* batchWG.Wait(); close(batchChan) *)
| OWaitPublish   (* publishWG.Wait() *)
| OClose         (* e.publisher.Close() *)
| OReturned (e : error).

(** What the publisher sees, in order. *)
Inductive SinkCall (T : Type) : Type :=
| PublishBatchCall (w : nat) (b : Batch T)
| PublishBatchRet (w : nat) (e : error)
| CloseCall (e : error).
Arguments PublishBatchCall {T}.
Arguments PublishBatchRet {T}.
Arguments CloseCall {T}.

Record State (T : Type) : Type := mkState {
  cancelled : bool;                 (* ctx.Done() is closed *)
  panicked : bool;                  (* a goroutine panicked *)
  dataChan : list (SensorData T);
  dataClosed : bool;
  batchChan : list (Batch T);
  batchClosed : bool;
  gen : GenPC T;
  counter : Z;                      (* local of generateData *)
  bat : BatPC;
  batch : Batch T;                  (* local of processBatches *)
  workers : list (WorkerPC T);
  orch : OrchPC;
  sinkLog : list (SinkCall T);
  stdout : list string;
  (* history *)
  generated : list (SensorData T);  (* envelopes built by generateData *)
  enqueued : list (SensorData T);   (* envelopes sent on dataChan *)
  emitted : list (Batch T)          (* batches sent on batchChan *)
}.
Arguments mkState {T}.
Arguments cancelled {T}.
Arguments panicked {T}.
Arguments dataChan {T}.
Arguments dataClosed {T}.
Arguments batchChan {T}.
Arguments batchClosed {T}.
Arguments gen {T}.
Arguments counter {T}.
Arguments bat {T}.
Arguments batch {T}.
Arguments workers {T}.
Arguments orch {T}.
Arguments sinkLog {T}.
Arguments stdout {T}.
Arguments generated {T}.
Arguments enqueued {T}.
Arguments emitted {T}.

Section Setters.
Context {T : Type}.
Implicit Type s : State T.

Definition set_cancelled (v : bool) s : State T :=
  mkState v (panicked s) (dataChan s) (dataClosed s) (batchChan s)
    (batchClosed s) (gen s) (counter s) (bat s) (batch s) (workers s)
    (orch s) (sinkLog s) (stdout s) (generated s) (enqueued s) (emitted s).

Definition set_panicked (v : bool) s : State T :=
  mkState (cancelled s) v (dataChan s) (dataClosed s) (batchChan s)
    (batchClosed s) (gen s) (counter s) (bat s) (batch s) (workers s)
    (orch s) (sinkLog s) (stdout s) (generated s) (enqueued s) (emitted s).

Definition set_dataChan (v : list (SensorData T)) s : State T :=
  mkState (cancelled s) (panicked s) v (dataClosed s) (batchChan s)
    (batchClosed s) (gen s) (counter s) (bat s) (batch s) (workers s)
    (orch s) (sinkLog s) (stdout s) (generated s) (enqueued s) (emitted s).

Definition set_dataClosed (v : bool) s : State T :=
  mkState (cancelled s) (panicked s) (dataChan s) v (batchChan s)
    (batchClosed s) (gen s) (counter s) (bat s) (batch s) (workers s)
    (orch s) (sinkLog s) (stdout s) (generated s) (enqueued s) (emitted s).

Definition set_batchChan (v : list (Batch T)) s : State T :=
  mkState (cancelled s) (panicked s) (dataChan s) (dataClosed s) v
    (batchClosed s) (gen s) (counter s) (bat s) (batch s) (workers s)
    (orch s) (sinkLog s) (stdout s) (generated s) (enqueued s) (emitted s).

Definition set_batchClosed (v : bool) s : State T :=
  mkState (cancelled s) (panicked s) (dataChan s) (dataClosed s)
    (batchChan s) v (gen s) (counter s) (bat s) (batch s) (workers s)
    (orch s) (sinkLog s) (stdout s) (generated s) (enqueued s) (emitted s).

Definition set_gen (v : GenPC T) s : State T :=
  mkState (cancelled s) (panicked s) (dataChan s) (dataClosed s)
    (batchChan s) (batchClosed s) v (counter s) (bat s) (batch s)
    (workers s) (orch s) (sinkLog s) (stdout s) (generated s) (enqueued s)
    (emitted s).

Definition set_counter (v : Z) s : State T :=
  mkState (cancelled s) (panicked s) (dataChan s) (dataClosed s)
    (batchChan s) (batchClosed s) (gen s) v (bat s) (batch s) (workers s)
    (orch s) (sinkLog s) (stdout s) (generated s) (enqueued s) (emitted s).

Definition set_bat (v : BatPC) s : State T :=
  mkState (cancelled s) (panicked s) (dataChan s) (dataClosed s)
    (batchChan s) (batchClosed s) (gen s) (counter s) v (batch s)
    (workers s) (orch s) (sinkLog s) (stdout s) (generated s) (enqueued s)
    (emitted s).

Definition set_batch (v : Batch T) s : State T :=
  mkState (cancelled s) (panicked s) (dataChan s) (dataClosed s)
    (batchChan s) (batchClosed s) (gen s) (counter s) (bat s) v (workers s)
    (orch s) (sinkLog s) (stdout s) (generated s) (enqueued s) (emitted s).

Definition set_workers (v : list (WorkerPC T)) s : State T :=
  mkState (cancelled s) (panicked s) (dataChan s) (dataClosed s)
    (batchChan s) (batchClosed s) (gen s) (counter s) (bat s) (batch s) v
    (orch s) (sinkLog s) (stdout s) (generated s) (enqueued s) (emitted s).

Definition set_orch (v : OrchPC) s : State T :=
  mkState (cancelled s) (panicked s) (dataChan s) (dataClosed s)
    (batchChan s) (batchClosed s) (gen s) (counter s) (bat s) (batch s)
    (workers s) v (sinkLog s) (stdout s) (generated s) (enqueued s)
    (emitted s).

Definition set_sinkLog (v : list (SinkCall T)) s : State T :=
  mkState (cancelled s) (panicked s) (dataChan s) (dataClosed s)
    (batchChan s) (batchClosed s) (gen s) (counter s) (bat s) (batch s)
    (workers s) (orch s) v (stdout s) (generated s) (enqueued s)
    (emitted s).

Definition set_stdout (v : list string) s : State T :=
  mkState (cancelled s) (panicked s) (dataChan s) (dataClosed s)
    (batchChan s) (batchClosed s) (gen s) (counter s) (bat s) (batch s)
    (workers s) (orch s) (sinkLog s) v (generated s) (enqueued s)
    (emitted s).

Definition set_generated (v : list (SensorData T)) s : State T :=
  mkState (cancelled s) (panicked s) (dataChan s) (dataClosed s)
    (batchChan s) (batchClosed s) (gen s) (counter s) (bat s) (batch s)
    (workers s) (orch s) (sinkLog s) (stdout s) v (enqueued s) (emitted s).

Definition set_enqueued (v : list (SensorData T)) s : State T :=
  mkState (cancelled s) (panicked s) (dataChan s) (dataClosed s)
    (batchChan s) (batchClosed s) (gen s) (counter s) (bat s) (batch s)
    (workers s) (orch s) (sinkLog s) (stdout s) (generated s) v (emitted s).

Definition set_emitted (v : list (Batch T)) s : State T :=
  mkState (cancelled s) (panicked s) (dataChan s) (dataClosed s)
    (batchChan s) (batchClosed s) (gen s) (counter s) (bat s) (batch s)
    (workers s) (orch s) (sinkLog s) (stdout s) (generated s) (enqueued s)
    v.
End Setters.

(** What the scheduler and the environment decide: which goroutine moves,
    which ready case its [select] takes, and what the collaborators return. *)
Inductive Event : Type :=
| EvCancel                           (* the caller cancels ctx *)
(* generateData *)
| EvGenInit                          (* time.NewTicker(ProductionRate) *)
| EvGenCtx                           (* outer select: <-ctx.Done() *)
| EvGenTick (input : float) (now : Time) (r : float)
                                     (* outer select: <-ticker.C *)
| EvGenSend                          (* inner select: dataChan <- sensorData *)
| EvGenSendCtx                       (* inner select: <-ctx.Done() *)
(* processBatches *)
| EvBatInit                          (* make, time.NewTicker(BatchTimeout) *)
| EvBatCtx                           (* select: <-ctx.Done() *)
| EvBatRecv                          (* select: data, ok := <-dataChan *)
| EvBatTick                          (* select: <-batchTicker.C *)
| EvBatSend                          (* inner select: batchChan <- batch *)
| EvBatSendCtx                       (* inner select: <-ctx.Done() *)
(* publishWorker number w *)
| EvWorkerCtx (w : nat)              (* select: <-ctx.Done() *)
| EvWorkerRecv (w : nat)             (* select: batch, ok := <-batchChan *)
| EvWorkerCall (w : nat)             (* PublishBatch is entered *)
| EvWorkerRet (w : nat) (e : error)  (* PublishBatch returns e *)
| EvWorkerPrint (w : nat)            (* fmt.Printf of the error *)
(* Start *)
| EvOrchCtx                          (* <-ctx.Done() *)
| EvOrchCloseData                    (* dataWG.Wait(); close(dataChan) *)
| EvOrchCloseBatch                   (* batchWG.Wait(); close(batchChan) *)
| EvOrchWorkersDone                  (* publishWG.Wait() *)
| EvOrchClose (e : error).           (* publisher.Close() returns e *)

Fixpoint set_nth {A : Type} (i : nat) (x : A) (l : list A) : list A :=
  match l, i with
  | [], _ => []
  | _ :: t, O => x :: t
  | h :: t, S j => h :: set_nth j x t
  end.

Definition isWDone {T : Type} (w : WorkerPC T) : bool :=
  match w with WDone => true | _ => false end.

Definition isGDone {T : Type} (g : GenPC T) : bool :=
  match g with GDone => true | _ => false end.

Definition isBDone (b : BatPC) : bool :=
  match b with BDone => true | _ => false end.

(** [fmt.Printf("Error publishing batch: %v\n", err)]. *)
Definition publishErrorLine (m : string) : string :=
  "Error publishing batch: " ++ m ++ String (ascii_of_nat 10) "".

(** [fmt.Errorf("error closing publisher: %w", err)]. *)
Definition closeError (m : string) : string :=
  "error closing publisher: " ++ m.

(** What [make([]SensorData[T], 0, n)] asks of the runtime. The size of
    an envelope in bytes, [unsafe.Sizeof(SensorData[T]{})], comes with [T]:
    the two strings and the [time.Time] take 56 bytes on a 64-bit platform,
    and the compiler refuses a channel whose element type has 64 kB or
    more, as that of [dataChan] would. *)
Class EnvelopeSize (T : Type) : Type := mkEnvelopeSize {
  sizeofSensorData : Z;
  sizeofSensorData_min : 56 <= sizeofSensorData;
  sizeofSensorData_max : sizeofSensorData < 2 ^ 16
}.
Arguments sizeofSensorData T {_}.

(** [maxAlloc] of the Go runtime where the heap has 48 address bits (the
    64-bit platforms, iOS and WebAssembly apart). *)
Definition maxAlloc : Z := 2 ^ 48.

(** [runtime.makeslice] panics on a negative capacity and on one whose
    bytes overflow or exceed [maxAlloc]. (An allocation that passes this
    test can still find the machine out of memory, which ends the process
    without a panic; the memory of the machine is not part of this
    model.) *)
Definition makeslicePanics (T : Type) {ES : EnvelopeSize T} (cap : Z) : bool :=
  (cap <? 0) || (maxAlloc <? sizeofSensorData T * cap).

(** A [SensorData[float64]] has 64 bytes. *)
#[global] Instance float_EnvelopeSize : EnvelopeSize float.
Proof.
  refine (mkEnvelopeSize float 64 _ _); lia.
Defined.

Section Pipeline.
Context {T : Type} {ES : EnvelopeSize T}.
Variable e : Engine T.

Definition set_worker (w : nat) (pc : WorkerPC T) (s : State T) : State T :=
  set_workers (set_nth w pc (workers s)) s.

(** One transition; [None] when the event is not enabled in [s]. *)
Definition step (ev : Event) (s : State T) : option (State T) :=
  if panicked s then None else
  match ev with
  | EvCancel => Some (set_cancelled true s)

  | EvGenInit =>
    match gen s with
    | GInit =>
      if ProductionRate (config e) <=? 0 then Some (set_panicked true s)
      else Some (set_gen GSelect s)
    | _ => None
    end
  | EvGenCtx =>
    match gen s with
    | GSelect => if cancelled s then Some (set_gen GDone s) else None
    | _ => None
    end
  | EvGenTick input timestamp r =>
    match gen s with
    | GSelect =>
      let data := function e input timestamp in
      let sensorData :=
        mkSensorData (sensorID (counter s)) timestamp data
                     (determineQuality r) in
      Some (set_gen (GSend sensorData)
             (set_generated (generated s ++ [sensorData]) s))
    | _ => None
    end
  | EvGenSend =>
    match gen s with
    | GSend sensorData =>
      if dataClosed s then Some (set_panicked true s)
      else if len (dataChan s) <? dataChanCap then
        Some (set_gen GSelect
               (set_counter (wrap64 (counter s + 1))
                 (set_enqueued (enqueued s ++ [sensorData])
                   (set_dataChan (dataChan s ++ [sensorData]) s))))
      else None
    | _ => None
    end
  | EvGenSendCtx =>
    match gen s with
    | GSend _ => if cancelled s then Some (set_gen GDone s) else None
    | _ => None
    end

  | EvBatInit =>
    match bat s with
    | BInit =>
      if makeslicePanics T (BatchSize (config e)) then
        Some (set_panicked true s)
      else if BatchTimeout (config e) <=? 0 then Some (set_panicked true s)
      else Some (set_bat BSelect (set_batch [] s))
    | _ => None
    end
  | EvBatCtx =>
    match bat s with
    | BSelect =>
      if cancelled s then
        if 0 <? len (batch s) then Some (set_bat (BFlush FlushCancel) s)
        else Some (set_bat BDone s)
      else None
    | _ => None
    end
  | EvBatRecv =>
    match bat s with
    | BSelect =>
      match dataChan s with
      | data :: rest =>
        let batch' := batch s ++ [data] in
        let s' := set_batch batch' (set_dataChan rest s) in
        if BatchSize (config e) <=? len batch' then
          Some (set_bat (BFlush FlushFull) s')
        else Some s'
      | [] =>
        if dataClosed s then
          if 0 <? len (batch s) then Some (set_bat (BFlush FlushClosed) s)
          else Some (set_bat BDone s)
        else None
      end
    | _ => None
    end
  | EvBatTick =>
    match bat s with
    | BSelect =>
      if 0 <? len (batch s) then Some (set_bat (BFlush FlushTimeout) s)
      else Some s
    | _ => None
    end
  | EvBatSend =>
    match bat s with
    | BFlush k =>
      if batchClosed s then Some (set_panicked true s)
      else if len (batchChan s) <? batchChanCap then
        let s' := set_emitted (emitted s ++ [batch s])
                    (set_batchChan (batchChan s ++ [batch s]) s) in
        match k with
        | FlushFull | FlushTimeout => Some (set_bat BSelect (set_batch [] s'))
        | FlushCancel | FlushClosed => Some (set_bat BDone s')
        end
      else None
    | _ => None
    end
  | EvBatSendCtx =>
    match bat s with
    | BFlush _ => if cancelled s then Some (set_bat BDone s) else None
    | _ => None
    end

  | EvWorkerCtx w =>
    match nth_error (workers s) w with
    | Some WSelect =>
      if cancelled s then Some (set_worker w WDone s) else None
    | _ => None
    end
  | EvWorkerRecv w =>
    match nth_error (workers s) w with
    | Some WSelect =>
      match batchChan s with
      | b :: rest => Some (set_worker w (WCall b) (set_batchChan rest s))
      | [] => if batchClosed s then Some (set_worker w WDone s) else None
      end
    | _ => None
    end
  | EvWorkerCall w =>
    match nth_error (workers s) w with
    | Some (WCall b) =>
      Some (set_worker w WWait
             (set_sinkLog (sinkLog s ++ [PublishBatchCall w b]) s))
    | _ => None
    end
  | EvWorkerRet w err =>
    match nth_error (workers s) w with
    | Some WWait =>
      let s' := set_sinkLog (sinkLog s ++ [PublishBatchRet w err]) s in
      match err with
      | Some m => Some (set_worker w (WPrint m) s')
      | None => Some (set_worker w WSelect s')
      end
    | _ => None
    end
  | EvWorkerPrint w =>
    match nth_error (workers s) w with
    | Some (WPrint m) =>
      Some (set_worker w WSelect
             (set_stdout (stdout s ++ [publishErrorLine m]) s))
    | _ => None
    end

  | EvOrchCtx =>
    match orch s with
    | OWaitCtx => if cancelled s then Some (set_orch OWaitData s) else None
    | _ => None
    end
  | EvOrchCloseData =>
    match orch s with
    | OWaitData =>
      if isGDone (gen s) then
        if dataClosed s then Some (set_panicked true s)
        else Some (set_orch OWaitBatch (set_dataClosed true s))
      else None
    | _ => None
    end
  | EvOrchCloseBatch =>
    match orch s with
    | OWaitBatch =>
      if isBDone (bat s) then
        if batchClosed s then Some (set_panicked true s)
        else Some (set_orch OWaitPublish (set_batchClosed true s))
      else None
    | _ => None
    end
  | EvOrchWorkersDone =>
    match orch s with
    | OWaitPublish =>
      if forallb isWDone (workers s) then Some (set_orch OClose s) else None
    | _ => None
    end
  | EvOrchClose err =>
    match orch s with
    | OClose =>
      let s' := set_sinkLog (sinkLog s ++ [CloseCall err]) s in
      match err with
      | Some m => Some (set_orch (OReturned (Some (closeError m))) s')
      | None => Some (set_orch (OReturned None) s')
      end
    | _ => None
    end
  end.

(** A run: the events of a schedule, one after the other. *)
Fixpoint run (tr : list Event) (s : State T) : option (State T) :=
  match tr with
  | [] => Some s
  | ev :: tr' =>
    match step ev s with
    | Some s' => run tr' s'
    | None => None
    end
  end.

(** [Start] has made its channels and spawned its goroutines:
    one generator, one batcher, [MaxWorkers] workers. *)
Definition init : State T :=
  mkState false false [] false [] false GInit 0 BInit []
    (repeat WSelect (Z.to_nat (MaxWorkers (config e))))
    OWaitCtx [] [] [] [] [].
End Pipeline.

(** The way of a worker from the return of [PublishBatch] back to its
    [select]: it prints the error, if there is one. *)
Definition afterPublish (w : nat) (err : error) : list Event :=
  match err with
  | Some _ => [EvWorkerPrint w]
  | None => []
  end.

(** ** What is observed of a state *)

Section Observations.
Context {T : Type}.

(** The batches handed to [PublishBatch], in the order of the calls. *)
Fixpoint delivered (log : list (SinkCall T)) : list (Batch T) :=
  match log with
  | [] => []
  | PublishBatchCall _ b :: log' => b :: delivered log'
  | _ :: log' => delivered log'
  end.

Definition isClose (c : SinkCall T) : bool :=
  match c with CloseCall _ => true | _ => false end.

(** How many times [Close] was called. *)
Definition closeCalls (log : list (SinkCall T)) : nat :=
  List.length (filter isClose log).

(** [PublishBatch] calls that have not returned. *)
Fixpoint outstanding (log : list (SinkCall T)) : Z :=
  match log with
  | [] => 0
  | PublishBatchCall _ _ :: log' => outstanding log' + 1
  | PublishBatchRet _ _ :: log' => outstanding log' - 1
  | CloseCall _ :: log' => outstanding log'
  end.

(** Workers inside [PublishBatch]. *)
Definition inCall (w : WorkerPC T) : Z :=
  match w with WWait => 1 | _ => 0 end.

Fixpoint calling (ws : list (WorkerPC T)) : Z :=
  match ws with
  | [] => 0
  | w :: ws' => inCall w + calling ws'
  end.

(** The batch a worker has received and not yet handed over. *)
Definition inHand (w : WorkerPC T) : list (Batch T) :=
  match w with WCall b => [b] | _ => [] end.

Definition returned (s : State T) : bool :=
  match orch s with OReturned _ => true | _ => false end.

(** Batches that hold an envelope with identifier [id]. *)
Definition holds (id : string) (b : Batch T) : bool :=
  existsb (fun d => String.eqb (ID d) id) b.

Definition batchesWith (id : string) (bs : list (Batch T)) : list (Batch T) :=
  filter (holds id) bs.
End Observations.

(** ** Concrete runs *)

(** [time.ParseDuration] on the string "0s", and on no other. *)
Definition parseZero (s : string) : result Duration :=
  if String.eqb s "0s" then Ok 0 else Err "unknown duration".

(** The engine of [cmd/test-engine]: batches of 3, a batch timeout of one
    second, here with a single worker and the identity as sensor function. *)
Definition testConfig : Config :=
  mkConfig 500000000 3 1000000000 1.

Definition testEngine : Engine float :=
  NewEngine testConfig (fun input _ => input).

(** The generator builds an envelope at time [now] and sends it; the batcher
    receives it. *)
Definition feed (now : Time) : list Event :=
  [EvGenTick 0.5 now 0.5; EvGenSend; EvBatRecv].

(** The worker receives a batch and publishes it, with outcome [err]. *)
Definition publish (err : error) : list Event :=
  [EvWorkerRecv 0; EvWorkerCall 0; EvWorkerRet 0 err] ++ afterPublish 0 err.

(** [Start] after cancellation, once the three stages have returned. *)
Definition shutdown (err : error) : list Event :=
  [EvOrchCtx; EvOrchCloseData; EvOrchCloseBatch; EvOrchWorkersDone;
   EvOrchClose err].

(** Seven envelopes are generated and batched, no batch timer fires. *)
Definition sevenFed : list Event :=
  [EvGenInit; EvBatInit] ++
  feed 1 ++ feed 2 ++ feed 3 ++ [EvBatSend] ++ publish None ++
  feed 4 ++ feed 5 ++ feed 6 ++ [EvBatSend] ++ publish None ++
  feed 7.

(** After cancellation every [select] takes its channel case: the batcher
    flushes its last batch and the worker publishes it before returning. *)
Definition sevenDrained : list Event :=
  sevenFed ++
  [EvCancel; EvGenCtx; EvBatCtx; EvBatSend] ++ publish None ++
  [EvWorkerCtx 0] ++ shutdown None.

(** After cancellation the batcher sends its last batch, and the [select]
    of the worker takes [<-ctx.Done()]: the worker returns and the last
    batch stays in [batchChan]. *)
Definition sevenCut : list Event :=
  sevenFed ++
  [EvCancel; EvGenCtx; EvBatCtx; EvBatSend; EvWorkerCtx 0] ++
  shutdown None.

(** One envelope waits in [dataChan] when the context is cancelled, and the
    batcher's [select] takes [<-ctx.Done()]. *)
Definition oneQueued : list Event :=
  [EvGenInit; EvBatInit; EvGenTick 0.5 1 0.5; EvGenSend].

Definition oneQueuedCut : list Event :=
  [EvGenCtx; EvBatCtx; EvWorkerCtx 0] ++ shutdown None.

(** Every publish fails, and so does [Close]. *)
Definition failingRun : list Event :=
  [EvGenInit; EvBatInit] ++
  feed 1 ++ feed 2 ++ feed 3 ++ [EvBatSend] ++ publish (Some "batch publish failed") ++
  feed 4 ++ [EvBatTick; EvBatSend] ++ publish (Some "batch publish failed") ++
  [EvCancel; EvGenCtx; EvBatCtx; EvWorkerCtx 0] ++
  shutdown (Some "close failed").


(** ** The properties that the specification speaks of *)

(** C3, as the specification states it: an engine that was constructed has a
    valid configuration. *)
Definition validated_at_construction : Prop :=
  forall (cfg : Config) (fn : float -> Time -> float),
    config_valid (config (NewEngine cfg fn)).

Definition prefix {A : Type} (l1 l2 : list A) : Prop :=
  exists t, l2 = l1 ++ t.

Section Properties.
Context {T : Type} {ES : EnvelopeSize T}.
Variable e : Engine T.







(** Nothing is lost before cancellation. *)
Definition conserved (s : State T) : Prop :=
  enqueued s = List.concat (emitted s) ++ batch s ++ dataChan s /\
  (MaxWorkers (config e) = 1 ->
   exists w,
     workers s = [w] /\
     emitted s = delivered (sinkLog s) ++ inHand w ++ batchChan s).

(** Order is kept, and nothing is delivered twice. *)
Definition in_order (s : State T) : Prop :=
  prefix (List.concat (emitted s)) (enqueued s) /\
  (MaxWorkers (config e) = 1 ->
   prefix (delivered (sinkLog s)) (emitted s)).

(** C1, as the specification states it: when [Start] has returned, every
    envelope that was sent on [dataChan] before the cancellation is in
    exactly one emitted batch and, with one worker, in exactly one batch
    handed to the sink. *)
Definition no_loss : Prop :=
  forall tr1 tr2 s1 s,
    run e tr1 (init e) = Some s1 -> cancelled s1 = false ->
    run e (EvCancel :: tr2) s1 = Some s -> returned s = true ->
    forall d, In d (enqueued s1) ->
      List.length (batchesWith (ID d) (emitted s)) = 1%nat /\
      (MaxWorkers (config e) = 1 ->
       List.length (batchesWith (ID d) (delivered (sinkLog s))) = 1%nat).

(** The identifiers of the envelopes, in the order of their generation. *)
Definition sequential_ids (s : State T) : Prop :=
  (forall i d, nth_error (generated s) i = Some d ->
               ID d = sensorID (Z.of_nat i)) /\
  NoDup (map ID (generated s)).

(** The bounds of the two queues, and how far the generator can be ahead
    of the batcher. *)
Definition bounded_queues (s : State T) : Prop :=
  len (dataChan s) <= 100 /\ len (batchChan s) <= 10 /\
  len (generated s) <= len (enqueued s) + 1 /\
  (bat s <> BDone ->
   len (enqueued s) <=
   len (List.concat (emitted s)) + len (batch s) + 100).
End Properties.

(** The draws of a schedule: the [rand.Float64()] of each envelope that
    the generator builds, in order. *)
Fixpoint draws (tr : list Event) : list float :=
  match tr with
  | [] => []
  | EvGenTick _ _ r :: tr' => r :: draws tr'
  | _ :: tr' => draws tr'
  end.

(** Four envelopes are built, on the draws 0.005, 0.02, 0.05 and 0.5. *)
Definition fourDraws : list Event :=
  [EvGenInit;
   EvGenTick 0.5 1 0.005; EvGenSend; EvGenTick 0.5 2 0.02; EvGenSend;
   EvGenTick 0.5 3 0.05; EvGenSend; EvGenTick 0.5 4 0.5].

Definition notBatTick (ev : Event) : bool :=
  match ev with EvBatTick => false | _ => true end.

(** The scenario of C8 on [testEngine] (batches of 3, one worker): exactly
    seven envelopes are fed, all before the cancellation, the batch timer
    never fires, and [Start] has returned. *)
Definition sevenScenario (tr : list Event) (s : State float) : Prop :=
  exists tr1 tr2 s1,
    tr = tr1 ++ EvCancel :: tr2 /\
    forallb notBatTick tr = true /\
    run testEngine tr1 (init testEngine) = Some s1 /\
    cancelled s1 = false /\ List.length (enqueued s1) = 7%nat /\
    run testEngine (EvCancel :: tr2) s1 = Some s /\
    returned s = true /\ List.length (enqueued s) = 7%nat.

(** C8's scenario, as the specification states it. *)
Definition delivers_3_3_1 : Prop :=
  forall tr s, sevenScenario tr s ->
               map len (delivered (sinkLog s)) = [3; 3; 1].

(** The generator fills [dataChan] while the batcher does not run, and
    builds one envelope more. *)
Definition fillQueue : list Event :=
  [EvGenInit] ++
  flat_map (fun i => [EvGenTick 0.5 (Z.of_nat i) 0.5; EvGenSend])
           (seq 0 100) ++
  [EvGenTick 0.5 100 0.5].




(** A worker inside [PublishBatch]. *)
Definition publishing : list Event :=
  [EvGenInit; EvBatInit] ++ feed 1 ++ feed 2 ++ feed 3 ++
  [EvBatSend; EvWorkerRecv 0; EvWorkerCall 0].

(** ** Invariants of the runs *)

Section Invariants.
Context {T : Type} {ES : EnvelopeSize T}.
Variable e : Engine T.

(** The queues never exceed their capacities. *)

Definition inv_caps (s : State T) : Prop :=
  len (dataChan s) <= dataChanCap /\ len (batchChan s) <= batchChanCap.

(** Where the orchestrator stands fixes which channels are closed and
    whether [Close] was called. *)
Definition inv_orch (s : State T) : Prop :=
  match orch s with
  | OWaitCtx =>
    dataClosed s = false /\ batchClosed s = false /\
    closeCalls (sinkLog s) = 0%nat
  | OWaitData =>
    cancelled s = true /\ dataClosed s = false /\ batchClosed s = false /\
    closeCalls (sinkLog s) = 0%nat
  | OWaitBatch =>
    cancelled s = true /\ dataClosed s = true /\ batchClosed s = false /\
    closeCalls (sinkLog s) = 0%nat
  | OWaitPublish =>
    cancelled s = true /\ dataClosed s = true /\ batchClosed s = true /\
    closeCalls (sinkLog s) = 0%nat
  | OClose =>
    cancelled s = true /\ dataClosed s = true /\ batchClosed s = true /\
    closeCalls (sinkLog s) = 0%nat /\
    forallb isWDone (workers s) = true
  | OReturned r =>
    cancelled s = true /\ dataClosed s = true /\ batchClosed s = true /\
    forallb isWDone (workers s) = true /\
    exists pre err,
      sinkLog s = pre ++ [CloseCall err] /\
      closeCalls pre = 0%nat /\ outstanding pre = 0 /\
      r = option_map closeError err
  end.

Definition inv_shutdown (s : State T) : Prop :=
  inv_orch s /\
  (dataClosed s = true -> gen s = GDone) /\
  (batchClosed s = true -> bat s = BDone) /\
  List.length (workers s) = Z.to_nat (MaxWorkers (config e)) /\
  calling (workers s) = outstanding (sinkLog s) /\
  (cancelled s = false ->
   match bat s with
   | BDone | BFlush FlushCancel | BFlush FlushClosed => False
   | _ => True
   end).

(** The sizes of the batches, for a maximum size of at least 1. *)
Definition okBatch (b : Batch T) : Prop :=
  1 <= len b <= BatchSize (config e).

Definition inv_sizes (s : State T) : Prop :=
  Forall okBatch (emitted s) /\
  match bat s with
  | BInit | BDone => True
  | BSelect => len (batch s) < BatchSize (config e)
  | BFlush _ => okBatch (batch s)
  end.

(** What was sent on [dataChan] is what the batcher has emitted, then its
    current batch, then what still waits in [dataChan]; once the batcher
    has returned, its last batch may not have been emitted. *)
Definition inv_data (s : State T) : Prop :=
  match bat s with
  | BInit => batch s = [] /\ enqueued s = dataChan s /\ emitted s = []
  | BDone =>
    exists lost, enqueued s = List.concat (emitted s) ++ lost ++ dataChan s
  | _ => enqueued s = List.concat (emitted s) ++ batch s ++ dataChan s
  end.

(** With one worker, what was sent on [batchChan] is what was handed to
    [PublishBatch], then the batch in the worker's hand, then what still
    waits in [batchChan]. *)
Definition inv_batches (s : State T) : Prop :=
  match workers s with
  | [w] => emitted s = delivered (sinkLog s) ++ inHand w ++ batchChan s
  | _ => True
  end.

(** The identifier of the [i]-th envelope the generator builds. *)
Definition idOf (i : nat) : string := sensorID (wrap64 (Z.of_nat i)).

Definition inv_gen (s : State T) : Prop :=
  counter s = wrap64 (len (enqueued s)) /\
  map ID (generated s) = map idOf (seq 0 (List.length (generated s))) /\
  match gen s with
  | GSend sensorData => generated s = enqueued s ++ [sensorData]
  | GDone =>
    exists tl, generated s = enqueued s ++ tl /\ (List.length tl <= 1)%nat
  | _ => generated s = enqueued s
  end.

(** As long as the batch timer has not fired, the batches sent on
    [batchChan] are full, except for the one that the batcher may send when
    it returns. *)
Definition inv_untimed (s : State T) : Prop :=
  exists full last,
    emitted s = full ++ last /\
    Forall (fun b => len b = BatchSize (config e)) full /\
    match bat s with
    | BDone => (List.length last <= 1)%nat
    | BFlush FlushTimeout => False
    | BFlush FlushFull => last = [] /\ len (batch s) = BatchSize (config e)
    | _ => last = []
    end.
End Invariants.

(** ** More of the pipeline: what is observed, and further runs *)

Section MoreObservations.
Context {T : Type} {ES : EnvelopeSize T}.

(** The batches that the workers have received and not yet handed over. *)
Definition inHands (ws : list (WorkerPC T)) : list (Batch T) :=
  flat_map inHand ws.

(** The lines that [publishWorker] prints for the errors in a sink log. *)
Fixpoint errorLines (log : list (SinkCall T)) : list string :=
  match log with
  | [] => []
  | PublishBatchRet _ (Some m) :: log' => publishErrorLine m :: errorLines log'
  | _ :: log' => errorLines log'
  end.

(** The lines that the workers are about to print. *)
Definition toPrint (w : WorkerPC T) : list string :=
  match w with WPrint m => [publishErrorLine m] | _ => [] end.

Definition toPrints (ws : list (WorkerPC T)) : list string :=
  flat_map toPrint ws.
End MoreObservations.

(** The schedule on which a goroutine leaves once the context is
    cancelled. *)
Definition genExit {T : Type} (g : GenPC T) : list Event :=
  match g with
  | GInit => [EvGenInit; EvGenCtx]
  | GSelect => [EvGenCtx]
  | GSend _ => [EvGenSendCtx]
  | GDone => []
  end.

Definition batExit {T : Type} (b : BatPC) (batch : Batch T) : list Event :=
  match b with
  | BInit => [EvBatInit; EvBatCtx]
  | BSelect => if 0 <? len batch then [EvBatCtx; EvBatSendCtx] else [EvBatCtx]
  | BFlush _ => [EvBatSendCtx]
  | BDone => []
  end.

Definition workerExit {T : Type} (w : nat) (pc : WorkerPC T) : list Event :=
  match pc with
  | WSelect => [EvWorkerCtx w]
  | WCall _ => [EvWorkerCall w; EvWorkerRet w None; EvWorkerCtx w]
  | WWait => [EvWorkerRet w None; EvWorkerCtx w]
  | WPrint _ => [EvWorkerPrint w; EvWorkerCtx w]
  | WDone => []
  end.

Fixpoint workersExit {T : Type} (w : nat) (ws : list (WorkerPC T))
  : list Event :=
  match ws with
  | [] => []
  | pc :: ws' => workerExit w pc ++ workersExit (S w) ws'
  end.

Definition orchExit (o : OrchPC) : list Event :=
  match o with
  | OWaitCtx =>
    [EvOrchCtx; EvOrchCloseData; EvOrchCloseBatch; EvOrchWorkersDone;
     EvOrchClose None]
  | OWaitData =>
    [EvOrchCloseData; EvOrchCloseBatch; EvOrchWorkersDone; EvOrchClose None]
  | OWaitBatch => [EvOrchCloseBatch; EvOrchWorkersDone; EvOrchClose None]
  | OWaitPublish => [EvOrchWorkersDone; EvOrchClose None]
  | OClose => [EvOrchClose None]
  | OReturned _ => []
  end.

(** Cancellation, then every goroutine leaving at its next [select], then
    the rest of [Start]. *)
Definition shutdownFrom {T : Type} (s : State T) : list Event :=
  [EvCancel] ++ genExit (gen s) ++ batExit (bat s) (batch s) ++
  workersExit 0 (workers s) ++ orchExit (orch s).

(** A batch size of 0. *)
Definition zeroBatchEngine : Engine float :=
  NewEngine (mkConfig 500000000 0 1000000000 1) (fun input _ => input).

Definition zeroBatchRun : list Event :=
  [EvGenInit; EvBatInit] ++
  feed 1 ++ [EvBatSend] ++ feed 2 ++ [EvBatSend] ++ feed 3 ++ [EvBatSend].

(** No worker. *)
Definition noWorkerEngine : Engine float :=
  NewEngine (mkConfig 500000000 1 1000000000 0) (fun input _ => input).

Definition noWorkerRun : list Event :=
  [EvGenInit; EvBatInit] ++
  feed 1 ++ [EvBatSend] ++ feed 2 ++ [EvBatSend] ++
  [EvCancel; EvGenCtx; EvBatCtx] ++ shutdown None.

(** Two workers: the second batch reaches the sink before the first. *)
Definition twoWorkerEngine : Engine float :=
  NewEngine (mkConfig 500000000 1 1000000000 2) (fun input _ => input).

Definition overtaking : list Event :=
  [EvGenInit; EvBatInit] ++
  feed 1 ++ [EvBatSend] ++ feed 2 ++ [EvBatSend] ++ feed 3 ++ [EvBatSend] ++
  [EvWorkerRecv 0; EvWorkerRecv 1; EvWorkerCall 1; EvWorkerCall 0].

(** Both calls fail, that of worker 0 first; worker 1 prints first. *)
Definition printsSwapped : list Event :=
  overtaking ++
  [EvWorkerRet 0 (Some "first"); EvWorkerRet 1 (Some "second");
   EvWorkerPrint 1; EvWorkerPrint 0].

(** A run that stops while the generator waits on a full [dataChan], the
    batcher on a full [batchChan] and the worker inside [PublishBatch]. *)
Definition blockedEngine : Engine float :=
  NewEngine (mkConfig 1 1 1 1) (fun input _ => input).

Definition blockedRun : list Event :=
  [EvGenInit; EvBatInit] ++
  feed 0 ++ [EvBatSend; EvWorkerRecv 0; EvWorkerCall 0] ++
  flat_map (fun i => feed (Z.of_nat i) ++ [EvBatSend]) (seq 1 10) ++
  feed 11 ++
  flat_map (fun i => [EvGenTick 0.5 (Z.of_nat i) 0.5; EvGenSend])
           (seq 12 100) ++
  [EvGenTick 0.5 112 0.5].

(** ** engine.go: the preset configurations *)

Definition Millisecond : Duration := 1000000.

(** [DefaultConfig], [HighThroughputConfig] and [LowLatencyConfig]. *)
Definition DefaultConfig : Config :=
  mkConfig (100 * Millisecond) 100 (500 * Millisecond) 3.

Definition HighThroughputConfig : Config :=
  mkConfig (10 * Millisecond) 1000 (100 * Millisecond) 10.

Definition LowLatencyConfig : Config :=
  mkConfig (50 * Millisecond) 10 (25 * Millisecond) 5.

(** ** config.go: parameters, seeders, and engines from a file *)

(** A value of a [map[string]interface{}], by its dynamic type. *)
Inductive Value : Type :=
| VFloat (v : float)     (* float64 *)
| VInt (v : Z)           (* int *)
| VString (v : string)   (* string *)
| VOther.                (* any other type, or nil *)

(** A [map[string]interface{}], read only: a key has the first value bound
    to it. *)
Definition Params : Type := list (string * Value).

Fixpoint lookup (params : Params) (key : string) : option Value :=
  match params with
  | [] => None
  | (k, v) :: params' => if String.eqb k key then Some v else lookup params' key
  end.

(** [SeederConfig], [OutputConfig], [FunctionConfig] and [ConfigFile]. *)
Record FunctionConfig : Type := mkFunctionConfig {
  fc_Type : string;
  fc_Params : Params
}.

Record SeederConfig : Type := mkSeederConfig {
  sc_Type : string;
  sc_Params : Params;
  sc_Function : option FunctionConfig
}.

Record OutputConfig : Type := mkOutputConfig {
  oc_Type : string;
  oc_Params : Params;
  oc_Metadata : list (string * string)
}.

Record ConfigFile : Type := mkConfigFile {
  cf_Engine : EngineConfig;
  cf_Seeder : SeederConfig;
  cf_Output : OutputConfig
}.

(** seeders.go: the seeders, as [NewTimeSeeder] and the others build them.
    A [LinearSeeder] keeps the time of its creation; a [CustomSeeder] keeps
    a function, which reads the clock. *)
Inductive Seeder : Type :=
| TimeSeeder (amplitude frequency offset : float)
| RandomSeeder (min max : float)
| LinearSeeder (slope offset : float) (start : Time)
| CustomSeeder (generateFunc : Time -> float)
| NormalSeeder (mean stdDev : float).

Section Config.
(** Of the Go library: [fmt.Sscanf] with "%f" and with "%d", the
    conversions [float64(v)] of an integer and [int(v)] of a float,
    [math.Sin], [time.ParseDuration], [os.ReadFile], and [json.Unmarshal]
    into a [ConfigFile]. *)
Variable Sscanf_f : string -> result float.
Variable Sscanf_d : string -> result Z.
Variable float64 : Z -> float.
Variable int : float -> Z.
Variable Sin : float -> float.
Variable ParseDuration : string -> result Duration.
Variable ReadFile : string -> result string.
Variable Unmarshal : string -> result ConfigFile.

Definition parseFloat (s : string) : result float := Sscanf_f s.
Definition parseInt (s : string) : result Z := Sscanf_d s.

Definition getFloatParam (params : Params) (key : string)
           (defaultValue : float) : float :=
  match lookup params key with
  | Some (VFloat v) => v
  | Some (VInt v) => float64 v
  | Some (VString v) =>
    match parseFloat v with
    | Ok parsed => parsed
    | Err _ => defaultValue
    end
  | _ => defaultValue
  end.

Definition getIntParam (params : Params) (key : string)
           (defaultValue : Z) : Z :=
  match lookup params key with
  | Some (VInt v) => v
  | Some (VFloat v) => int v
  | Some (VString v) =>
    match parseInt v with
    | Ok parsed => parsed
    | Err _ => defaultValue
    end
  | _ => defaultValue
  end.

Definition getStringParam (params : Params) (key : string)
           (defaultValue : string) : string :=
  match lookup params key with
  | Some (VString str) => str
  | _ => defaultValue
  end.

Definition createTimeSeeder (c : ConfigFile) : result Seeder :=
  let amplitude := getFloatParam (sc_Params (cf_Seeder c)) "amplitude" 1.0 in
  let frequency := getFloatParam (sc_Params (cf_Seeder c)) "frequency" 0.1 in
  let offset := getFloatParam (sc_Params (cf_Seeder c)) "offset" 0.0 in
  Ok (TimeSeeder amplitude frequency offset).

Definition createRandomSeeder (c : ConfigFile) : result Seeder :=
  let min := getFloatParam (sc_Params (cf_Seeder c)) "min" 0.0 in
  let max := getFloatParam (sc_Params (cf_Seeder c)) "max" 1.0 in
  Ok (RandomSeeder min max).

(** [NewLinearSeeder] reads the clock: [now]. *)
Definition createLinearSeeder (c : ConfigFile) (now : Time) : result Seeder :=
  let slope := getFloatParam (sc_Params (cf_Seeder c)) "slope" 1.0 in
  let offset := getFloatParam (sc_Params (cf_Seeder c)) "offset" 0.0 in
  Ok (LinearSeeder slope offset now).

Definition createNormalSeeder (c : ConfigFile) : result Seeder :=
  let mean := getFloatParam (sc_Params (cf_Seeder c)) "mean" 0.0 in
  let stdDev := getFloatParam (sc_Params (cf_Seeder c)) "std_dev" 1.0 in
  Ok (NormalSeeder mean stdDev).

(** The function of the custom seeder, at clock reading [now] (in
    nanoseconds); each operation is rounded on its own. *)
Definition customWave (c : ConfigFile) (now : Time) : float :=
  let t := (float64 now / 1e9)%float in
  (getFloatParam (sc_Params (cf_Seeder c)) "amplitude" 1.0 *
   (0.3 * Sin (t * 2.0) + 0.2 * Sin (t * 7.3) + 0.1 * Sin (t * 13.7)))%float.

Definition createCustomSeeder (c : ConfigFile) : result Seeder :=
  Ok (CustomSeeder (customWave c)).

(** [ConfigFile.CreateSeeder]. *)
Definition CreateSeeder (c : ConfigFile) (now : Time) : result Seeder :=
  let ty := sc_Type (cf_Seeder c) in
  if String.eqb ty "time" then createTimeSeeder c
  else if String.eqb ty "random" then createRandomSeeder c
  else if String.eqb ty "linear" then createLinearSeeder c now
  else if String.eqb ty "normal" then createNormalSeeder c
  else if String.eqb ty "custom" then createCustomSeeder c
  else Err ("unknown seeder type: " ++ ty).

(** [LoadConfigFromFile]. *)
Definition LoadConfigFromFile (filename : string) : result ConfigFile :=
  match ReadFile filename with
  | Err err => Err ("failed to read config file: " ++ err)
  | Ok data =>
    match Unmarshal data with
    | Err err => Err ("failed to parse config file: " ++ err)
    | Ok config => Ok config
    end
  end.

(** [CreateEngineFromConfig]: the engine, with the seeder made for it. *)
Definition CreateEngineFromConfig {T : Type} (filename : string)
           (fn : float -> Time -> T) (now : Time)
  : result (Engine T * Seeder) :=
  match LoadConfigFromFile filename with
  | Err err => Err ("failed to load config: " ++ err)
  | Ok configFile =>
    match ToEngineConfig ParseDuration (cf_Engine configFile) with
    | Err err => Err ("failed to convert engine config: " ++ err)
    | Ok engineConfig =>
      match CreateSeeder configFile now with
      | Err err => Err ("failed to create seeder: " ++ err)
      | Ok seeder => Ok (NewEngine engineConfig fn, seeder)
      end
    end
  end.
End Config.

(** [DefaultConfigFile]. *)
Definition DefaultConfigFile : ConfigFile :=
  mkConfigFile
    (mkEngineConfig "100ms" 100 "500ms" 3)
    (mkSeederConfig "time"
       [("amplitude", VFloat 1.0); ("frequency", VFloat 0.1);
        ("offset", VFloat 0.0)]
       None)
    (mkOutputConfig "console" []
       [("version", "1.0"); ("source", "go-sensor-engine")]).

(** The seeder types that [CreateSeeder] knows. *)
Definition seederTypes : list string :=
  ["time"; "random"; "linear"; "normal"; "custom"].

(** [time.ParseDuration] on the two strings of [DefaultConfigFile]. *)
Definition parseDefaults (s : string) : result Duration :=
  if String.eqb s "100ms" then Ok (100 * Millisecond)
  else if String.eqb s "500ms" then Ok (500 * Millisecond)
  else Err "unknown duration".

(** An engine on the default preset, and a run on which three envelopes
    reach its batcher. *)
Definition defaultEngine : Engine float :=
  NewEngine DefaultConfig (fun input _ => input).

Definition defaultRun : list Event :=
  [EvGenInit; EvBatInit] ++ feed 1 ++ feed 2 ++ feed 3.

(** ** engine_test.go: the publisher and the seeder of the tests *)

Section MockPublisher.
Context {T : Type}.

Record MockPublisher : Type := mkMockPublisher {
  published : list (SensorData T);
  batches : list (Batch T);
  publishCalled : Z;
  batchCalled : Z;
  closed : bool
}.

Definition NewMockPublisher : MockPublisher :=
  mkMockPublisher [] [] 0 0 false.

(** The methods: the publisher after the call, and the error returned. *)
Definition MockPublisher_Publish (m : MockPublisher) (data : SensorData T)
  : MockPublisher * error :=
  (mkMockPublisher (published m ++ [data]) (batches m)
                   (wrap64 (publishCalled m + 1)) (batchCalled m) (closed m),
   None).

Definition MockPublisher_PublishBatch (m : MockPublisher) (data : Batch T)
  : MockPublisher * error :=
  (mkMockPublisher (published m) (batches m ++ [data])
                   (publishCalled m) (wrap64 (batchCalled m + 1)) (closed m),
   None).

Definition MockPublisher_Close (m : MockPublisher) : MockPublisher * error :=
  (mkMockPublisher (published m) (batches m)
                   (publishCalled m) (batchCalled m) true,
   None).

Definition GetPublishedCount (m : MockPublisher) : Z := publishCalled m.

Definition GetBatchCount (m : MockPublisher) : Z := batchCalled m.

Definition GetTotalDataPoints (m : MockPublisher) : Z :=
  fold_left (fun total batch => wrap64 (total + len batch))
            (batches m) (len (published m)).

Definition IsClosed (m : MockPublisher) : bool := closed m.

(** The mock as the publisher of an engine: each call of the sink log runs
    the method called, one call at a time. *)
Definition mockCall (m : MockPublisher) (c : SinkCall T) : MockPublisher :=
  match c with
  | PublishBatchCall _ b => fst (MockPublisher_PublishBatch m b)
  | PublishBatchRet _ _ => m
  | CloseCall _ => fst (MockPublisher_Close m)
  end.

Definition mockAfter (log : list (SinkCall T)) : MockPublisher :=
  fold_left mockCall log NewMockPublisher.

(** The sink log agrees with what the mock returns: nil from every call. *)
Definition mockAnswer (c : SinkCall T) : Prop :=
  match c with
  | PublishBatchCall _ _ => True
  | PublishBatchRet _ err => err = None
  | CloseCall err => err = None
  end.
End MockPublisher.

Arguments MockPublisher : clear implicits.

Record TestSeeder : Type := mkTestSeeder {
  values : list float;
  index : Z
}.

Definition NewTestSeeder (values : list float) : TestSeeder :=
  mkTestSeeder values 0.

(** [TestSeeder.Generate]: the value and the seeder after the call; [None]
    when the index is out of range, where Go panics. *)
Definition TestSeeder_Generate (t : TestSeeder) : option (float * TestSeeder) :=
  let index := if len (values t) <=? index t then 0 else index t in
  if index <? 0 then None else
  match nth_error (values t) (Z.to_nat index) with
  | None => None
  | Some val => Some (val, mkTestSeeder (values t) (wrap64 (index + 1)))
  end.

(** [n] calls of [Generate], one after the other. *)
Fixpoint generateN (n : nat) (t : TestSeeder)
  : option (list float * TestSeeder) :=
  match n with
  | O => Some ([], t)
  | S n' =>
    match TestSeeder_Generate t with
    | None => None
    | Some (val, t') =>
      match generateN n' t' with
      | None => None
      | Some (vals, t'') => Some (val :: vals, t'')
      end
    end
  end.

(** A seeder of three values, as in the tests. *)
Definition threeValues : TestSeeder := NewTestSeeder [0.1; 0.2; 0.3]%float.

(** ** publisher: the gRPC and the Kafka publisher *)

Definition bytes : Type := list Byte.byte.

Section Publishers.
Context {T : Type}.
(** [json.Marshal] of an envelope. *)
Variable Marshal : SensorData T -> result bytes.

(** The loop of [GenericGRPCPublisher.PublishBatch] from index [i] on:
    the payloads when every envelope is marshalled, else the first
    error. *)
Fixpoint GRPC_marshalFrom (i : nat) (data : list (SensorData T))
         (payloads : list bytes) : result (list bytes) :=
  match data with
  | [] => Ok payloads
  | d :: data' =>
    match Marshal d with
    | Err err => Err err
    | Ok payload => GRPC_marshalFrom (S i) data' (set_nth i payload payloads)
    end
  end.

(** [GenericGRPCPublisher.PublishBatch] over a client whose
    [SendSensorDataBatch] is [send]: the calls made on the client, and the
    error returned. *)
Definition GRPC_PublishBatch (send : list bytes -> error)
           (data : list (SensorData T)) : list (list bytes) * error :=
  let payloads := repeat ([] : bytes) (List.length data) in
  match GRPC_marshalFrom 0 data payloads with
  | Err err => ([], Some err)
  | Ok payloads => ([payloads], send payloads)
  end.

(** [kafka.Message], the fields that the publisher sets. *)
Record Message : Type := mkMessage {
  msg_Key : bytes;
  msg_Value : bytes;
  msg_Time : Time
}.

Definition zeroMessage : Message := mkMessage [] [] 0.

(** The loop of [GenericKafkaPublisher.PublishBatch] from index [i] on;
    [now i] is the clock as read for the [i]-th message. *)
Fixpoint Kafka_messagesFrom (now : nat -> Time) (i : nat)
         (data : list (SensorData T)) (messages : list Message)
  : result (list Message) :=
  match data with
  | [] => Ok messages
  | d :: data' =>
    match Marshal d with
    | Err err => Err err
    | Ok value =>
      Kafka_messagesFrom now (S i) data'
        (set_nth i (mkMessage (String.list_byte_of_string (ID d)) value
                              (now i))
                 messages)
    end
  end.

(** [GenericKafkaPublisher.PublishBatch] over a writer whose
    [WriteMessages] is [write]: the calls made on the writer, and the error
    returned. The mutex is held throughout: calls do not interleave. *)
Definition Kafka_PublishBatch (write : list Message -> error)
           (now : nat -> Time) (data : list (SensorData T))
  : list (list Message) * error :=
  let messages := repeat zeroMessage (List.length data) in
  match Kafka_messagesFrom now 0 data messages with
  | Err err => ([], Some err)
  | Ok messages => ([messages], write messages)
  end.
End Publishers.

(** A marshaller that refuses the envelopes of quality corrupt, and a batch
    of two envelopes. *)
Definition marshalID (d : SensorData float) : result bytes :=
  if String.eqb (Quality_ d) QualityCorrupt then Err "unsupported value"
  else Ok (String.list_byte_of_string (ID d)).

Definition twoEnvelopes : list (SensorData float) :=
  [mkSensorData (sensorID 0) 1 0.5%float QualityOK;
   mkSensorData (sensorID 1) 2 0.5%float QualityOK].

(** ** examples.go: the market seeder *)

Record MarketSeeder : Type := mkMarketSeeder { cycle : float }.

(** [MarketSeeder.Generate], with [r] the draw [rand.Float64()]: the value
    and the seeder after the call. *)
Definition MarketSeeder_Generate (Sin : float -> float) (m : MarketSeeder)
           (r : float) : float * MarketSeeder :=
  let m_cycle := (cycle m + 0.1)%float in
  let baseValue := 0.5%float in
  let cycle := (Sin (m_cycle * 0.1) * 0.3)%float in
  let noise := ((r - 0.5) * 0.2)%float in
  let trend := (Sin (m_cycle * 0.01) * 0.2)%float in
  let result := (baseValue + cycle + noise + trend)%float in
  let result :=
    if (result <? 0)%float then 0%float
    else if (1 <? result)%float then 1%float
    else result in
  (result, mkMarketSeeder m_cycle).

(** ** Further invariants of the runs *)

From Stdlib Require Import Permutation.

Section MoreInvariants.
Context {T : Type} {ES : EnvelopeSize T}.
Variable e : Engine T.

(** The largest batch that the batcher sends: [len(batch) >= BatchSize] is
    tested after every append, so a size below 1 acts as 1. *)
Definition maxBatch : Z := Z.max 1 (BatchSize (config e)).

Definition inv_sizes_any (s : State T) : Prop :=
  Forall (fun b => 1 <= len b <= maxBatch) (emitted s) /\
  match bat s with
  | BInit | BDone => True
  | BSelect => len (batch s) < maxBatch
  | BFlush _ => 1 <= len (batch s) <= maxBatch
  end.

(** For any number of workers, the batches sent on [batchChan] are those
    handed to [PublishBatch], those in the workers' hands and those still in
    [batchChan], each once. *)
Definition inv_perm (s : State T) : Prop :=
  Permutation (emitted s)
              (delivered (sinkLog s) ++ inHands (workers s) ++ batchChan s).

(** What was built: the payload is the sensor function at the envelope's
    own timestamp, the quality that of a draw, the identifier a counter
    value. *)
Definition wellBuilt (d : SensorData T) : Prop :=
  (exists input, Data d = function e input (Timestamp d)) /\
  (exists r, Quality_ d = determineQuality r) /\
  (exists n, ID d = sensorID n).

Definition inv_built (s : State T) : Prop :=
  Forall wellBuilt (generated s).

(** The error lines of the sink log are those on standard output and
    those that the workers are about to print; with one worker they are in
    the order of the log. *)
Definition inv_stdout (s : State T) : Prop :=
  Permutation (errorLines (sinkLog s)) (stdout s ++ toPrints (workers s)) /\
  (forall w, workers s = [w] ->
             errorLines (sinkLog s) = stdout s ++ toPrint w).

(** [inv_untimed] on any configuration: a full batch has [maxBatch]
    envelopes. *)
Definition inv_untimed_any (s : State T) : Prop :=
  exists full last,
    emitted s = full ++ last /\
    Forall (fun b => len b = maxBatch) full /\
    match bat s with
    | BDone => (List.length last <= 1)%nat
    | BFlush FlushTimeout => False
    | BFlush FlushFull => last = [] /\ len (batch s) = maxBatch
    | _ => last = []
    end.

(** Without workers nothing leaves [batchChan]. *)
Definition inv_no_worker (s : State T) : Prop :=
  workers s = [] ->
  emitted s = batchChan s /\ Forall (fun c => isClose c = true) (sinkLog s).
End MoreInvariants.

(** * Construction and quality *)

(** ** Construction and validation *)

(** C3 (counterexample): [NewEngine] accepts the all-zero configuration
    as it is, [ToEngineConfig] hands it over when the duration strings parse,
    and the failure shows at run time: the generator's [time.NewTicker]
    panics inside [Start]. *)
Lemma NewEngine_accepts_invalid_config :
  ~ validated_at_construction /\
  ToEngineConfig parseZero (mkEngineConfig "0s" 0 "0s" 0)
    = Ok (mkConfig 0 0 0 0) /\
  exists s, step (NewEngine (mkConfig 0 0 0 0) (fun x _ => x)) EvGenInit
                 (init (NewEngine (mkConfig 0 0 0 0) (fun x _ => x))) = Some s
            /\ panicked s = true.
Proof.
  split; [| split].
  - intro H. specialize (H (mkConfig 0 0 0 0) (fun x _ => x)).
    destruct H as [H _]. discriminate H.
  - reflexivity.
  - eexists. split; [reflexivity | reflexivity].
Qed.

(** C3 (amended): nothing is validated at construction. [NewEngine] keeps
    any configuration unchanged and cannot fail; [ToEngineConfig] fails
    exactly when one of the two duration strings does not parse, and
    otherwise copies the batch size and the worker count unchanged. *)
Theorem construction_does_not_validate :
  (forall (T : Type) (cfg : Config) (fn : float -> Time -> T),
      config (NewEngine cfg fn) = cfg) /\
  (forall (parse : string -> result Duration) (c : EngineConfig),
      match ToEngineConfig parse c with
      | Ok cfg =>
        parse (ec_ProductionRate c) = Ok (ProductionRate cfg) /\
        parse (ec_BatchTimeout c) = Ok (BatchTimeout cfg) /\
        BatchSize cfg = ec_BatchSize c /\
        MaxWorkers cfg = ec_MaxWorkers c
      | Err _ =>
        (exists m, parse (ec_ProductionRate c) = Err m) \/
        (exists m, parse (ec_BatchTimeout c) = Err m)
      end).
Proof.
  split.
  - reflexivity.
  - intros parse c. unfold ToEngineConfig.
    destruct (parse (ec_ProductionRate c)) as [pr | m] eqn:Hpr.
    + destruct (parse (ec_BatchTimeout c)) as [bt | m] eqn:Hbt; cbn.
      * repeat split; reflexivity.
      * right. exists m. reflexivity.
    + left. exists m. reflexivity.
Qed.

(** ** determineQuality *)

Section FloatOrder.
(** Comparisons of binary64 values against positive finite constants, on
    the specification of the primitive operations. *)

Lemma SFleb_SFltb_finite (ma mb : positive) (ea eb : Z) (x : spec_float) :
  ea < eb \/ (ea = eb /\ (ma <= mb)%positive) ->
  SFleb (S754_finite false mb eb) x = true ->
  SFltb x (S754_finite false ma ea) = false.
Proof.
  intros Hord. unfold SFleb, SFltb.
  destruct x as [s | s | | s m e]; cbn; try discriminate.
  - destruct s; [discriminate | reflexivity].
  - destruct s; [discriminate |].
    change (Pos.compare_cont Eq mb m) with (Pos.compare mb m).
    change (Pos.compare_cont Eq m ma) with (Pos.compare m ma).
    destruct (Z.compare_spec eb e), (Z.compare_spec e ea);
      try reflexivity; try discriminate; try (exfalso; lia).
    destruct (Pos.compare_spec mb m), (Pos.compare_spec m ma);
      try reflexivity; try discriminate.
    all: exfalso; lia.
Qed.

Lemma leb_ltb_const (a b r : float) (ma mb : positive) (ea eb : Z) :
  Prim2SF a = S754_finite false ma ea ->
  Prim2SF b = S754_finite false mb eb ->
  ea < eb \/ (ea = eb /\ (ma <= mb)%positive) ->
  (b <=? r)%float = true -> (r <? a)%float = false.
Proof.
  intros Ha Hb Hord. rewrite leb_spec, ltb_spec, Ha, Hb.
  apply SFleb_SFltb_finite. exact Hord.
Qed.
End FloatOrder.

(** The cumulative thresholds of [determineQuality]. *)
Lemma determineQuality_cases (r : float) :
  ((r <? 0.01)%float = true -> determineQuality r = QualityCorrupt) /\
  ((0.01 <=? r)%float = true -> (r <? 0.03)%float = true ->
     determineQuality r = QualityPartial) /\
  ((0.03 <=? r)%float = true -> (r <? 0.08)%float = true ->
     determineQuality r = QualityNoisy) /\
  ((0.08 <=? r)%float = true -> determineQuality r = QualityOK) /\
  In (determineQuality r)
     [QualityOK; QualityNoisy; QualityPartial; QualityCorrupt] /\
  NoDup [QualityOK; QualityNoisy; QualityPartial; QualityCorrupt].
Proof.
  pose (m1 := 5764607523034235%positive).
  pose (m3 := 8646911284551352%positive).
  assert (L11 : (0.01 <=? r)%float = true -> (r <? 0.01)%float = false).
  { apply (leb_ltb_const 0.01 0.01 r m1 m1 (-59) (-59));
      [reflexivity | reflexivity | right; split; [reflexivity | lia]]. }
  assert (L31 : (0.03 <=? r)%float = true -> (r <? 0.01)%float = false).
  { apply (leb_ltb_const 0.01 0.03 r m1 m3 (-59) (-58));
      [reflexivity | reflexivity | left; lia]. }
  assert (L33 : (0.03 <=? r)%float = true -> (r <? 0.03)%float = false).
  { apply (leb_ltb_const 0.03 0.03 r m3 m3 (-58) (-58));
      [reflexivity | reflexivity | right; split; [reflexivity | lia]]. }
  assert (L81 : (0.08 <=? r)%float = true -> (r <? 0.01)%float = false).
  { apply (leb_ltb_const 0.01 0.08 r m1 m1 (-59) (-56));
      [reflexivity | reflexivity | left; lia]. }
  assert (L83 : (0.08 <=? r)%float = true -> (r <? 0.03)%float = false).
  { apply (leb_ltb_const 0.03 0.08 r m3 m1 (-58) (-56));
      [reflexivity | reflexivity | left; lia]. }
  assert (L88 : (0.08 <=? r)%float = true -> (r <? 0.08)%float = false).
  { apply (leb_ltb_const 0.08 0.08 r m1 m1 (-56) (-56));
      [reflexivity | reflexivity | right; split; [reflexivity | lia]]. }
  unfold determineQuality. repeat split.
  - intros H. rewrite H. reflexivity.
  - intros H1 H3. rewrite (L11 H1), H3. reflexivity.
  - intros H3 H8. rewrite (L31 H3), (L33 H3), H8. reflexivity.
  - intros H8. rewrite (L81 H8), (L83 H8), (L88 H8). reflexivity.
  - destruct (r <? 0.01)%float; [cbn; tauto |].
    destruct (r <? 0.03)%float; [cbn; tauto |].
    destruct (r <? 0.08)%float; cbn; tauto.
  - repeat constructor; cbn; intuition discriminate.
Qed.

(** * Runs and their invariants *)

Lemma len_nil {A : Type} : len (@nil A) = 0.
Proof. reflexivity. Qed.

Lemma len_cons {A : Type} (x : A) (l : list A) : len (x :: l) = len l + 1.
Proof. unfold len. cbn [List.length]. lia. Qed.

Lemma len_app {A : Type} (l1 l2 : list A) : len (l1 ++ l2) = len l1 + len l2.
Proof. unfold len. rewrite length_app. lia. Qed.

Lemma len_nonneg {A : Type} (l : list A) : 0 <= len l.
Proof. unfold len. lia. Qed.


Create Rewrite HintDb len.
#[local] Hint Rewrite @len_nil @len_cons @len_app : len.

(** Boolean tests of the code, as propositions. *)
Ltac zbool :=
  repeat match goal with
  | H : (_ <? _) = true |- _ => apply Z.ltb_lt in H
  | H : (_ <? _) = false |- _ => apply Z.ltb_ge in H
  | H : (_ <=? _) = true |- _ => apply Z.leb_le in H
  | H : (_ <=? _) = false |- _ => apply Z.leb_gt in H
  end.

(** All the ways in which [step e ev s = Some s'] can hold: one goal per
    path through [step], with the tests on the path as hypotheses. *)
Ltac step_cases H :=
  unfold step in H;
  repeat match type of H with
  | context [match ?x with _ => _ end] => destruct x eqn:?; try discriminate H
  end;
  injection H as <-.

(** Projections out of updated states. *)
Ltac simpl_state :=
  cbn [cancelled panicked dataChan dataClosed batchChan batchClosed gen
       counter bat batch workers orch sinkLog stdout generated enqueued
       emitted set_cancelled set_panicked set_dataChan set_dataClosed
       set_batchChan set_batchClosed set_gen set_counter set_bat set_batch
       set_workers set_worker set_orch set_sinkLog set_stdout set_generated
       set_enqueued set_emitted] in *.

Section Runs.
Context {T : Type} {ES : EnvelopeSize T}.
Variable e : Engine T.

Lemma run_app (tr1 tr2 : list Event) (s : State T) :
  run e (tr1 ++ tr2) s =
  match run e tr1 s with
  | Some s' => run e tr2 s'
  | None => None
  end.
Proof.
  revert s. induction tr1 as [| ev tr1 IH]; intros s; cbn.
  - reflexivity.
  - destruct (step e ev s); [apply IH | reflexivity].
Qed.

(** A property kept by every transition is kept by every run. *)
Lemma run_invariant (P : State T -> Prop) :
  (forall ev s s', P s -> step e ev s = Some s' -> P s') ->
  forall tr s s', P s -> run e tr s = Some s' -> P s'.
Proof.
  intros Hstep. induction tr as [| ev tr IH]; intros s s' HP Hrun; cbn in Hrun.
  - injection Hrun as <-. exact HP.
  - destruct (step e ev s) as [s1 |] eqn:Hs; [| discriminate].
    eapply IH; [| exact Hrun]. eapply Hstep; eassumption.
Qed.

(** The same for the runs whose events all pass a test. *)
Lemma run_invariant_on (ok : Event -> bool) (P : State T -> Prop) :
  (forall ev s s', ok ev = true -> P s -> step e ev s = Some s' -> P s') ->
  forall tr s s',
    forallb ok tr = true -> P s -> run e tr s = Some s' -> P s'.
Proof.
  intros Hstep. induction tr as [| ev tr IH]; intros s s' Hok HP Hrun;
    cbn in Hrun, Hok.
  - injection Hrun as <-. exact HP.
  - apply andb_true_iff in Hok as [Hev Hok].
    destruct (step e ev s) as [s1 |] eqn:Hs; [| discriminate].
    eapply IH; [exact Hok | | exact Hrun]. eapply Hstep; eassumption.
Qed.

Lemma inv_caps_step ev s s' :
  inv_caps s -> step e ev s = Some s' -> inv_caps s'.
Proof.
  unfold inv_caps. intros [Hd Hb] Hs.
  destruct ev; step_cases Hs; cbn; zbool;
    repeat match goal with
    | H : dataChan s = _ |- _ => apply (f_equal len) in H
    | H : batchChan s = _ |- _ => apply (f_equal len) in H
    end;
    autorewrite with len in *; split; lia.
Qed.

Lemma inv_caps_run tr s : run e tr (init e) = Some s -> inv_caps s.
Proof.
  apply run_invariant; [exact inv_caps_step |].
  unfold inv_caps, dataChanCap, batchChanCap. cbn. split; lia.
Qed.
End Runs.

(** ** Workers and the sink log *)

Section WorkerLemmas.
Context {T : Type} {ES : EnvelopeSize T}.
Implicit Type ws : list (WorkerPC T).

Lemma set_nth_length {A : Type} (i : nat) (x : A) (l : list A) :
  List.length (set_nth i x l) = List.length l.
Proof.
  revert i. induction l as [| h t IH]; intros [| j]; cbn; auto.
Qed.

Lemma calling_set_nth ws w old pc :
  nth_error ws w = Some old ->
  calling (set_nth w pc ws) = calling ws - inCall old + inCall pc.
Proof.
  revert w. induction ws as [| h t IH]; intros [| j] H; cbn in *;
    try discriminate.
  - injection H as ->. lia.
  - rewrite (IH j H). lia.
Qed.

Lemma calling_done ws : forallb isWDone ws = true -> calling ws = 0.
Proof.
  induction ws as [| h t IH]; cbn; [reflexivity |].
  intros H. apply andb_true_iff in H as [Hh Ht].
  destruct h; try discriminate. cbn. rewrite (IH Ht). reflexivity.
Qed.

Lemma done_nth ws w pc :
  forallb isWDone ws = true -> nth_error ws w = Some pc -> pc = WDone.
Proof.
  intros Hall Hn. rewrite forallb_forall in Hall.
  apply nth_error_In in Hn. apply Hall in Hn.
  destruct pc; try discriminate. reflexivity.
Qed.

Lemma closeCalls_snoc (log : list (SinkCall T)) (c : SinkCall T) :
  closeCalls (log ++ [c]) =
  (closeCalls log + (if isClose c then 1 else 0))%nat.
Proof.
  unfold closeCalls. rewrite filter_app, length_app. cbn.
  destruct (isClose c); reflexivity.
Qed.

Lemma outstanding_snoc (log : list (SinkCall T)) (c : SinkCall T) :
  outstanding (log ++ [c]) =
  outstanding log +
  match c with
  | PublishBatchCall _ _ => 1
  | PublishBatchRet _ _ => -1
  | CloseCall _ => 0
  end.
Proof.
  induction log as [| h t IH]; cbn.
  - destruct c; lia.
  - destruct h; rewrite IH; lia.
Qed.

Lemma delivered_snoc (log : list (SinkCall T)) (c : SinkCall T) :
  delivered (log ++ [c]) =
  delivered log ++
  match c with PublishBatchCall _ b => [b] | _ => [] end.
Proof.
  induction log as [| h t IH]; cbn.
  - destruct c; reflexivity.
  - destruct h; rewrite IH; reflexivity.
Qed.
End WorkerLemmas.

(** ** The shutdown protocol of [Start] *)

Section Shutdown.
Context {T : Type} {ES : EnvelopeSize T}.
Variable e : Engine T.

Ltac use_eqs :=
  repeat match goal with
  | H : orch _ = _ |- _ => progress rewrite H in *
  | H : bat _ = _ |- _ => progress rewrite H in *
  | H : gen _ = _ |- _ => progress rewrite H in *
  | H : cancelled _ = _ |- _ => progress rewrite H in *
  | H : dataClosed _ = _ |- _ => progress rewrite H in *
  | H : batchClosed _ = _ |- _ => progress rewrite H in *
  end.

Lemma inv_shutdown_step ev s s' :
  inv_shutdown e s -> step e ev s = Some s' -> inv_shutdown e s'.
Proof.
  unfold inv_shutdown, inv_orch.
  intros (Ho & Hd & Hb & Hl & Hc & Hx) Hs.
  destruct ev; step_cases Hs; simpl_state;
    use_eqs;
    rewrite ?set_nth_length, ?closeCalls_snoc, ?outstanding_snoc;
    try (erewrite calling_set_nth by eassumption; cbn [inCall]).
  all: cbn [isClose Nat.add] in *; rewrite ?Nat.add_0_r.
  all: try match goal with
       | |- context [orch ?x] => destruct (orch x) eqn:Horch
       end; cbn beta iota in *.
  all: try match goal with
       | Hn : nth_error (workers ?x) _ = Some _, Ho : _ /\ _ |- _ =>
         let Hall := fresh in
         assert (Hall : forallb isWDone (workers x) = true) by tauto;
         pose proof (done_nth _ _ _ Hall Hn); discriminate
       end.
  all: try match goal with
       | H : isGDone (gen ?x) = true |- _ =>
         destruct (gen x) eqn:Hgen; try discriminate H
       | H : isBDone (bat ?x) = true |- _ =>
         destruct (bat x) eqn:Hbat; try discriminate H
       end.
  all: try solve [intuition (try congruence; try lia; try discriminate)].
  all: destruct Ho as (? & ? & ? & ? & Hall);
    pose proof (calling_done _ Hall);
    repeat split; try tauto; try lia;
    eexists _, _; repeat split; try reflexivity; try assumption; lia.
Qed.

Lemma inv_shutdown_run tr s : run e tr (init e) = Some s -> inv_shutdown e s.
Proof.
  apply run_invariant; [exact inv_shutdown_step |].
  unfold inv_shutdown, inv_orch. cbn.
  rewrite repeat_length. repeat split; try discriminate.
  induction (Z.to_nat (MaxWorkers (config e))); cbn; auto.
Qed.
End Shutdown.

(** ** No panic on a configuration that [time.NewTicker] and [make] accept *)

Section NoPanic.
Context {T : Type} {ES : EnvelopeSize T}.
Variable e : Engine T.
Hypothesis HRate : 0 < ProductionRate (config e).
Hypothesis HSize : 0 <= BatchSize (config e).
Hypothesis HFits : sizeofSensorData T * BatchSize (config e) <= maxAlloc.
Hypothesis HTimeout : 0 < BatchTimeout (config e).

(** No goroutine sends on a closed channel and no channel is closed twice:
    the only panics of the pipeline are those of its two initialisations. *)
Lemma never_panics tr s : run e tr (init e) = Some s -> panicked s = false.
Proof.
  intros Hrun.
  enough (H : inv_shutdown e s /\ panicked s = false) by apply H.
  revert Hrun.
  apply (run_invariant e (fun s => inv_shutdown e s /\ panicked s = false)).
  - intros ev s0 s1 [Hinv Hp] Hs. split.
    + exact (inv_shutdown_step e ev s0 s1 Hinv Hs).
    + destruct Hinv as (Ho & Hd & Hb & _). unfold inv_orch in Ho.
      destruct ev; step_cases Hs; simpl_state; zbool; try assumption;
        try lia;
        try (match goal with
             | H : makeslicePanics _ _ = true |- _ =>
               unfold makeslicePanics in H; apply orb_true_iff in H;
               destruct H; zbool; lia
             end);
        exfalso;
        repeat match goal with
        | H : orch _ = _ |- _ => rewrite H in Ho
        end;
        try (rewrite Hd in * by assumption; discriminate);
        try (rewrite Hb in * by assumption; discriminate);
        intuition congruence.
  - split; [| reflexivity].
    apply (inv_shutdown_run e []). reflexivity.
Qed.
End NoPanic.

(** ** The batcher: sizes of the batches *)

Section Sizes.
Context {T : Type} {ES : EnvelopeSize T}.
Variable e : Engine T.
Hypothesis HBatchSize : 1 <= BatchSize (config e).

Lemma inv_sizes_step ev s s' :
  inv_sizes e s -> step e ev s = Some s' -> inv_sizes e s'.
Proof.
  unfold inv_sizes, okBatch. intros [He Hb] Hs.
  destruct ev; step_cases Hs; simpl_state;
    repeat match goal with
    | H : bat _ = _ |- _ => progress rewrite H in *
    end;
    zbool; autorewrite with len in *;
    try (split; [assumption || (apply Forall_app; split; auto) | lia || auto]).
Qed.

Lemma inv_sizes_run tr s : run e tr (init e) = Some s -> inv_sizes e s.
Proof.
  apply run_invariant; [exact inv_sizes_step |].
  unfold inv_sizes. cbn. auto.
Qed.
End Sizes.

(** ** The batcher without its timer *)

Section Untimed.
Context {T : Type} {ES : EnvelopeSize T}.
Variable e : Engine T.
Hypothesis HBatchSize : 1 <= BatchSize (config e).

Lemma inv_untimed_step ev s s' :
  notBatTick ev = true ->
  inv_sizes e s /\ inv_untimed e s ->
  step e ev s = Some s' ->
  inv_sizes e s' /\ inv_untimed e s'.
Proof.
  intros Hev [Hsz Hun] Hs.
  split; [exact (inv_sizes_step e HBatchSize ev s s' Hsz Hs) |].
  destruct Hsz as [_ Hsz]. destruct Hun as (full & last & Hem & Hfull & Hbat).
  unfold inv_untimed, okBatch in *.
  destruct ev; try discriminate Hev; step_cases Hs; simpl_state;
    repeat match goal with
    | H : bat _ = _ |- _ => progress rewrite H in *
    end;
    zbool; autorewrite with len in *;
    try (exists full, last; repeat split; solve [auto | lia]).
  - (* the batcher returns on cancellation with an empty batch *)
    subst last. exists full, []. auto.
  - (* the batcher returns on the closed [dataChan] with an empty batch *)
    subst last. exists full, []. auto.
  - (* the batcher sends its last batch on cancellation *)
    subst last. exists full, [batch s]. rewrite Hem, app_nil_r. auto.
  - (* the batcher sends its last batch, [dataChan] being closed *)
    subst last. exists full, [batch s]. rewrite Hem, app_nil_r. auto.
  - (* a full batch is sent *)
    destruct Hbat as [-> Hlen]. exists (full ++ [batch s]), [].
    rewrite Hem, !app_nil_r. repeat split; auto.
    apply Forall_app. split; auto.
  - (* the batcher returns without sending *)
    exists full, []. rewrite Hem.
    destruct k;
      [subst last | subst last | destruct Hbat as [-> _] | contradiction];
      auto.
Qed.

Lemma inv_untimed_run tr s :
  forallb notBatTick tr = true ->
  run e tr (init e) = Some s ->
  inv_sizes e s /\ inv_untimed e s.
Proof.
  intros Hok.
  apply (run_invariant_on e notBatTick
           (fun s => inv_sizes e s /\ inv_untimed e s));
    [intros; eapply inv_untimed_step; eassumption | exact Hok |].
  split.
  - apply (inv_sizes_run e HBatchSize []). reflexivity.
  - exists [], []. cbn. auto.
Qed.
End Untimed.

(** ** Where the envelopes are *)

Section Flow.
Context {T : Type} {ES : EnvelopeSize T}.
Variable e : Engine T.

Lemma inv_data_step ev s s' :
  inv_data s -> step e ev s = Some s' -> inv_data s'.
Proof.
  unfold inv_data. intros Hd Hs.
  destruct ev; step_cases Hs; simpl_state;
    try match goal with
        | |- context [bat ?x] => destruct (bat x) eqn:Hbat
        end;
    repeat match goal with
    | H : bat _ = _ |- _ => progress rewrite H in *
    | H : dataChan _ = _ |- _ => progress rewrite H in *
    end;
    try assumption; try discriminate;
    try match type of Hd with
        | ex _ => destruct Hd as [lost Hd]
        | _ /\ _ => destruct Hd as (Hd0 & Hd & Hd1)
        end;
    rewrite ?Hd, ?Hd0, ?Hd1, ?List.concat_app; cbn [List.concat];
    rewrite ?app_nil_r, <- ?app_assoc; cbn [app];
    try reflexivity; try (repeat split; reflexivity);
    first [ exists lost; rewrite <- ?app_assoc; reflexivity
          | exists []; cbn [app]; rewrite <- ?app_assoc; reflexivity
          | match goal with
            | |- context [batch ?x] =>
              exists (batch x); rewrite ?app_nil_r, <- ?app_assoc;
              reflexivity
            end ].
Qed.

Lemma inv_data_run tr s : run e tr (init e) = Some s -> inv_data s.
Proof.
  apply run_invariant; [exact inv_data_step |]. cbn. auto.
Qed.

Lemma inv_batches_step ev s s' :
  inv_batches s -> step e ev s = Some s' -> inv_batches s'.
Proof.
  unfold inv_batches. intros Hb Hs.
  destruct ev; step_cases Hs; simpl_state; try assumption;
    match goal with
    | |- context [workers ?x] =>
      destruct (workers x) as [| wa [| wb ws]] eqn:Hws
    end;
    repeat match goal with
    | H : nth_error _ ?w = Some _ |- _ =>
      destruct w as [| [| ?]]; cbn in H; try discriminate H;
      injection H as ->
    end;
    cbn [set_nth inHand app] in *; try exact I;
    rewrite ?delivered_snoc;
    repeat match goal with
    | H : batchChan _ = _ |- _ => progress rewrite H in *
    end;
    rewrite ?Hb, ?app_nil_r, <- ?app_assoc; cbn [app];
    try reflexivity.
  all: match goal with
       | |- context [set_nth ?w _ _] => destruct w as [| [| w]]; exact I
       end.
Qed.

Lemma inv_batches_run tr s : run e tr (init e) = Some s -> inv_batches s.
Proof.
  apply run_invariant; [exact inv_batches_step |].
  unfold inv_batches. cbn.
  destruct (Z.to_nat (MaxWorkers (config e))) as [| [| n]]; cbn; auto.
Qed.
End Flow.

(** ** The generator: identifiers *)

Lemma wrap64_small (z : Z) : - 2 ^ 63 <= z < 2 ^ 63 -> wrap64 z = z.
Proof.
  intros H. unfold wrap64. rewrite Z.mod_small; lia.
Qed.

Lemma wrap64_succ (z : Z) : wrap64 (wrap64 z + 1) = wrap64 (z + 1).
Proof.
  unfold wrap64.
  replace ((z + 2 ^ 63) mod 2 ^ 64 - 2 ^ 63 + 1 + 2 ^ 63)
    with ((z + 2 ^ 63) mod 2 ^ 64 + 1) by lia.
  rewrite Z.add_mod_idemp_l by lia.
  replace (z + 2 ^ 63 + 1) with (z + 1 + 2 ^ 63) by lia. reflexivity.
Qed.

Lemma sprintf_d_inj (a b : Z) : sprintf_d a = sprintf_d b -> a = b.
Proof.
  unfold sprintf_d. intros H.
  assert (Hi : Some (Z.to_int a) = Some (Z.to_int b)).
  { rewrite <- (NilEmpty.isi (Z.to_int a)), <- (NilEmpty.isi (Z.to_int b)).
    rewrite H. reflexivity. }
  injection Hi as Hi.
  rewrite <- (DecimalZ.of_to a), <- (DecimalZ.of_to b), Hi. reflexivity.
Qed.

Lemma sensorID_inj (a b : Z) : sensorID a = sensorID b -> a = b.
Proof.
  unfold sensorID. cbn. intros H. injection H as H. apply sprintf_d_inj, H.
Qed.

Section Generator.
Context {T : Type} {ES : EnvelopeSize T}.
Variable e : Engine T.

Lemma inv_gen_step ev s s' :
  inv_gen s -> step e ev s = Some s' -> inv_gen s'.
Proof.
  unfold inv_gen. intros (Hc & Hid & Hg) Hs.
  destruct ev; step_cases Hs; simpl_state;
    try (split; [| split]; assumption);
    repeat match goal with
    | H : gen _ = _ |- _ => progress rewrite H in *
    end;
    try (split; [| split]; assumption).
  - (* the generator leaves its outer select on cancellation *)
    repeat split; try assumption. exists []. rewrite app_nil_r. auto.
  - (* a tick: the envelope gets the identifier of the counter *)
    repeat split; try assumption.
    + rewrite map_app, length_app, Nat.add_1_r, seq_S, map_app, Hid.
      cbn [map ID Nat.add]. unfold idOf at 2.
      rewrite Hc, Hg. reflexivity.
    + rewrite Hg. reflexivity.
  - (* the envelope is sent: the counter moves on *)
    repeat split; try assumption.
    rewrite Hc, wrap64_succ, len_app. reflexivity.
  - (* the generator leaves its inner select on cancellation *)
    repeat split; try assumption. exists [sensorData]. auto.
Qed.

Lemma inv_gen_run tr s : run e tr (init e) = Some s -> inv_gen s.
Proof.
  apply run_invariant; [exact inv_gen_step |].
  unfold inv_gen. cbn. auto.
Qed.

Lemma idOf_small (i : nat) : Z.of_nat i < 2 ^ 63 -> idOf i = sensorID (Z.of_nat i).
Proof.
  intros H. unfold idOf. rewrite wrap64_small; [reflexivity | lia].
Qed.
End Generator.

(** ** The quality of the envelopes *)

(** Each tick of the generator builds one envelope, whose quality is that
    of the draw of the tick; nothing else builds an envelope. *)
Lemma qualities_step {T : Type} {ES : EnvelopeSize T} (e : Engine T)
      (ev : Event) (s s' : State T) :
  step e ev s = Some s' ->
  map Quality_ (generated s') =
  map Quality_ (generated s) ++ map determineQuality (draws [ev]).
Proof.
  intros Hs.
  destruct ev; step_cases Hs; simpl_state; cbn [draws map];
    rewrite ?app_nil_r; try reflexivity.
  rewrite map_app. reflexivity.
Qed.

Lemma qualities_run {T : Type} {ES : EnvelopeSize T} (e : Engine T)
      (tr : list Event) :
  forall s0 s : State T,
    run e tr s0 = Some s ->
    map Quality_ (generated s) =
    map Quality_ (generated s0) ++ map determineQuality (draws tr).
Proof.
  induction tr as [| ev tr IH]; intros s0 s Hrun.
  - injection Hrun as <-. cbn. rewrite app_nil_r. reflexivity.
  - cbn [run] in Hrun. destruct (step e ev s0) as [s1 |] eqn:Hs;
      [| discriminate].
    rewrite (IH s1 s Hrun), (qualities_step e ev s0 s1 Hs).
    rewrite <- app_assoc, <- map_app. f_equal. f_equal.
    destruct ev; reflexivity.
Qed.

(** C4: the qualities of the envelopes built on a run are, one by one and
    in order, [determineQuality] of the draws made on that run, one draw
    for each envelope; [r < 0.01] gives CORRUPT, [0.01 <= r < 0.03]
    PARTIAL, [0.03 <= r < 0.08] NOISY and [0.08 <= r] OK, and every draw
    gets exactly one of these four (distinct) values. *)
Theorem determineQuality_thresholds :
  (forall (T : Type) (ES : EnvelopeSize T) (e : Engine T)
          (tr : list Event) (s : State T),
      run e tr (init e) = Some s ->
      map Quality_ (generated s) = map determineQuality (draws tr)) /\
  (forall r : float,
      ((r <? 0.01)%float = true -> determineQuality r = QualityCorrupt) /\
      ((0.01 <=? r)%float = true -> (r <? 0.03)%float = true ->
         determineQuality r = QualityPartial) /\
      ((0.03 <=? r)%float = true -> (r <? 0.08)%float = true ->
         determineQuality r = QualityNoisy) /\
      ((0.08 <=? r)%float = true -> determineQuality r = QualityOK) /\
      In (determineQuality r)
         [QualityOK; QualityNoisy; QualityPartial; QualityCorrupt] /\
      NoDup [QualityOK; QualityNoisy; QualityPartial; QualityCorrupt]).
Proof.
  split.
  - intros T ES e tr s Hrun.
    exact (qualities_run e tr (init e) s Hrun).
  - exact determineQuality_cases.
Qed.

(** C4 on a run that builds four envelopes, on the draws 0.005, 0.02, 0.05
    and 0.5. *)
Lemma determineQuality_thresholds_witness :
  exists s,
    run testEngine fourDraws (init testEngine) = Some s /\
    map Quality_ (generated s) =
    [QualityCorrupt; QualityPartial; QualityNoisy; QualityOK].
Proof.
  eexists. split; [vm_compute; reflexivity |].
  etransitivity.
  { apply (proj1 determineQuality_thresholds float _ testEngine fourDraws).
    vm_compute. reflexivity. }
  cbn [draws fourDraws map].
  rewrite (proj1 (proj2 determineQuality_thresholds 0.005%float) eq_refl).
  rewrite (proj1 (proj2 (proj2 determineQuality_thresholds 0.02%float))
                 eq_refl eq_refl).
  rewrite (proj1 (proj2 (proj2 (proj2 determineQuality_thresholds
                                      0.05%float))) eq_refl eq_refl).
  rewrite (proj1 (proj2 (proj2 (proj2 (proj2 determineQuality_thresholds
                                             0.5%float)))) eq_refl).
  reflexivity.
Defined.

(** * The properties of the pipeline *)

Lemma nth_error_set_nth {A : Type} (i : nat) (x y : A) (l : list A) :
  nth_error l i = Some y -> nth_error (set_nth i x l) i = Some x.
Proof.
  revert i. induction l as [| h t IH]; intros [| j] H; cbn in *;
    try discriminate; auto.
Qed.



(** C10: for every configuration, [dataChan] never holds more than 100
    envelopes and [batchChan] never more than 10 batches; the generator has
    built at most one envelope that is not yet in the queue, so it is never
    more than 100 envelopes (and that one) ahead of the batcher. *)
Theorem queues_bounded {T : Type} {ES : EnvelopeSize T} (e : Engine T)
        (tr : list Event)
        (s : State T) :
  run e tr (init e) = Some s -> bounded_queues s.
Proof.
  intros Hrun.
  destruct (inv_caps_run e tr s Hrun) as [Hd Hb].
  destruct (inv_gen_run e tr s Hrun) as (_ & _ & Hg).
  pose proof (inv_data_run e tr s Hrun) as Hf.
  unfold bounded_queues, dataChanCap, batchChanCap in *.
  repeat split; try assumption.
  - destruct (gen s); try (rewrite Hg; autorewrite with len; lia).
    destruct Hg as (tl & -> & Hl). autorewrite with len. unfold len at 2. lia.
  - intros Hbat. unfold inv_data in Hf.
    destruct (bat s); try congruence;
      try destruct Hf as (Hb0 & -> & He); try rewrite Hf;
      rewrite ?Hb0, ?He; autorewrite with len; cbn [List.concat]; 
      autorewrite with len; pose proof (len_nonneg (batch s));
      pose proof (len_nonneg (List.concat (emitted s))); lia.
Qed.

(** C10 on a run that fills [dataChan]: the queue holds 100 envelopes, the
    generator holds the next one, and its send is not enabled. *)
Lemma queues_bounded_witness :
  exists s,
    run testEngine fillQueue (init testEngine) = Some s /\
    len (dataChan s) = 100 /\ len (generated s) = 101 /\
    step testEngine EvGenSend s = None /\
    bounded_queues s.
Proof.
  eexists. split; [vm_compute; reflexivity |].
  split; [reflexivity |]. split; [reflexivity |].
  split; [reflexivity |].
  apply (queues_bounded testEngine fillQueue). vm_compute. reflexivity.
Defined.

(** C6: with a maximum batch size of at least 1, every batch sent on
    [batchChan] has between 1 and [BatchSize] envelopes. *)
Theorem batch_size_bounds {T : Type} {ES : EnvelopeSize T} (e : Engine T)
        (tr : list Event)
        (s : State T) :
  1 <= BatchSize (config e) ->
  run e tr (init e) = Some s ->
  Forall (fun b => 1 <= len b <= BatchSize (config e)) (emitted s).
Proof.
  intros Hsize Hrun.
  destruct (inv_sizes_run e Hsize tr s Hrun) as [He _]. exact He.
Qed.

(** C6 on the run of seven envelopes: batches of 3, 3 and 1. *)
Lemma batch_size_bounds_witness :
  exists s,
    run testEngine sevenDrained (init testEngine) = Some s /\
    map len (emitted s) = [3; 3; 1] /\
    Forall (fun b => 1 <= len b <= 3) (emitted s).
Proof.
  eexists. split; [vm_compute; reflexivity |]. split; [reflexivity |].
  apply (batch_size_bounds testEngine sevenDrained).
  - vm_compute. discriminate.
  - vm_compute. reflexivity.
Defined.









(** C9: the [i]-th envelope that the generator builds has the identifier
    "sensor-i", so no two envelopes share an identifier and identifiers
    follow the order of generation (as long as the counter, a Go [int],
    has not passed 2^63 - 1). *)
Theorem identifiers_sequential {T : Type} {ES : EnvelopeSize T} (e : Engine T)
        (tr : list Event)
        (s : State T) :
  run e tr (init e) = Some s ->
  len (generated s) <= 2 ^ 63 ->
  sequential_ids s.
Proof.
  intros Hrun Hlen.
  destruct (inv_gen_run e tr s Hrun) as (_ & Hid & _).
  unfold len in Hlen. split.
  - intros i d Hn.
    assert (Hi : (i < List.length (generated s))%nat).
    { apply nth_error_Some. congruence. }
    apply (map_nth_error ID) in Hn. rewrite Hid in Hn.
    rewrite nth_error_map, (nth_error_nth' _ 0%nat) in Hn
      by (rewrite length_seq; exact Hi).
    rewrite seq_nth in Hn by exact Hi. cbn in Hn.
    injection Hn as <-. apply idOf_small. lia.
  - rewrite Hid. apply NoDup_map_NoDup_ForallPairs; [| apply seq_NoDup].
    intros a b Ha Hb Heq. apply in_seq in Ha, Hb.
    rewrite !idOf_small in Heq by lia.
    apply sensorID_inj in Heq. lia.
Qed.

(** C9 on the run of seven envelopes. *)
Lemma identifiers_sequential_witness :
  exists s,
    run testEngine sevenDrained (init testEngine) = Some s /\
    map ID (generated s) =
      ["sensor-0"; "sensor-1"; "sensor-2"; "sensor-3"; "sensor-4";
       "sensor-5"; "sensor-6"] /\
    sequential_ids s.
Proof.
  eexists. split; [vm_compute; reflexivity |]. split; [reflexivity |].
  apply (identifiers_sequential testEngine sevenDrained).
  - vm_compute. reflexivity.
  - vm_compute. discriminate.
Defined.

(** The batcher does not return before the cancellation. *)
Lemma batcher_runs_until_cancel {T : Type} {ES : EnvelopeSize T} (e : Engine T)
      (tr : list Event)
      (s : State T) :
  run e tr (init e) = Some s -> cancelled s = false -> bat s <> BDone.
Proof.
  intros Hrun Hc Hbat.
  destruct (inv_shutdown_run e tr s Hrun) as (_ & _ & _ & _ & _ & Hx).
  specialize (Hx Hc). rewrite Hbat in Hx. exact Hx.
Qed.

Lemma data_in_order {T : Type} {ES : EnvelopeSize T} (e : Engine T)
      (tr : list Event)
      (s : State T) :
  run e tr (init e) = Some s ->
  prefix (List.concat (emitted s)) (enqueued s).
Proof.
  intros Hrun. pose proof (inv_data_run e tr s Hrun) as Hd.
  unfold inv_data, prefix in *. destruct (bat s).
  - destruct Hd as (_ & -> & ->). exists (dataChan s). reflexivity.
  - eexists. exact Hd.
  - eexists. exact Hd.
  - destruct Hd as [lost Hd]. eexists. exact Hd.
Qed.

Lemma single_worker {T : Type} {ES : EnvelopeSize T} (e : Engine T)
      (tr : list Event)
      (s : State T) :
  run e tr (init e) = Some s -> MaxWorkers (config e) = 1 ->
  exists w,
    workers s = [w] /\
    emitted s = delivered (sinkLog s) ++ inHand w ++ batchChan s.
Proof.
  intros Hrun Hone.
  destruct (inv_shutdown_run e tr s Hrun) as (_ & _ & _ & Hl & _).
  pose proof (inv_batches_run e tr s Hrun) as Hb. unfold inv_batches in Hb.
  rewrite Hone in Hl.
  destruct (workers s) as [| w [| w' ws]]; try discriminate Hl.
  exists w. auto.
Qed.

(** C1 (counterexample): one envelope is in [dataChan] when the context is
    cancelled; the batcher's [select] takes [<-ctx.Done()] and returns with
    an empty batch, the worker returns, [Start] closes the sink and returns:
    "sensor-0" is in no batch. *)
Lemma envelope_lost_on_cancel : ~ no_loss testEngine.
Proof.
  intros H.
  eassert (R1 : run testEngine oneQueued (init testEngine) = Some _)
    by (vm_compute; reflexivity).
  match type of R1 with
  | _ = Some ?s1 =>
    eassert (R2 : run testEngine (EvCancel :: oneQueuedCut) s1 = Some _)
      by (vm_compute; reflexivity)
  end.
  destruct (H _ _ _ _ R1 eq_refl R2 eq_refl _ (or_introl eq_refl))
    as [Hone _].
  vm_compute in Hone. discriminate Hone.
Qed.

(** C1 (amended): until the context is cancelled nothing is lost and
    nothing is duplicated: the envelopes sent on [dataChan] are, in order,
    those of the emitted batches, of the current batch and of the queue,
    and with one worker the emitted batches are, in order, those handed to
    the sink, the one in the worker's hand and those in [batchChan]. At any
    time the emitted batches hold a prefix of the envelopes sent, each
    once, and with one worker the delivered batches are a prefix of the
    emitted ones. *)
Theorem conserved_until_cancel {T : Type} {ES : EnvelopeSize T} (e : Engine T)
        (tr : list Event)
        (s : State T) :
  run e tr (init e) = Some s ->
  (cancelled s = false -> conserved e s) /\ in_order e s.
Proof.
  intros Hrun. split.
  - intros Hc. split.
    + pose proof (batcher_runs_until_cancel e tr s Hrun Hc) as Hbat.
      pose proof (inv_data_run e tr s Hrun) as Hd. unfold inv_data in Hd.
      destruct (bat s); try congruence.
      destruct Hd as (-> & -> & ->). reflexivity.
    + apply (single_worker e tr s Hrun).
  - split.
    + apply (data_in_order e tr s Hrun).
    + intros Hone.
      destruct (single_worker e tr s Hrun Hone) as (w & _ & Hw).
      eexists. exact Hw.
Qed.

(** C1 (amended) before the cancellation of the run of seven envelopes. *)
Lemma conserved_until_cancel_witness :
  exists s,
    run testEngine sevenFed (init testEngine) = Some s /\
    cancelled s = false /\ List.length (enqueued s) = 7%nat /\
    conserved testEngine s /\ in_order testEngine s.
Proof.
  eexists. split; [vm_compute; reflexivity |].
  split; [reflexivity |]. split; [reflexivity |].
  split.
  - apply (conserved_until_cancel testEngine sevenFed);
      [vm_compute; reflexivity | reflexivity].
  - apply (conserved_until_cancel testEngine sevenFed).
    vm_compute. reflexivity.
Defined.

(** C8 (counterexample): seven envelopes, batches of 3, one worker, no
    batch timer. After the cancellation the batcher sends the last batch
    on [batchChan], and the [select] of the worker takes [<-ctx.Done()]:
    the worker returns without receiving it, and the sink gets batches of
    sizes 3 and 3 only. *)
Lemma last_batch_left_on_cancel : ~ delivers_3_3_1.
Proof.
  intros H.
  eassert (R1 : run testEngine sevenFed (init testEngine) = Some _)
    by (vm_compute; reflexivity).
  match type of R1 with
  | _ = Some ?s1 =>
    eassert (R2 : run testEngine
                    (EvCancel ::
                     [EvGenCtx; EvBatCtx; EvBatSend; EvWorkerCtx 0] ++
                     shutdown None) s1 = Some _)
      by (vm_compute; reflexivity)
  end.
  eassert (Hs : sevenScenario sevenCut _).
  { eexists _, _, _. split; [reflexivity |]. split; [reflexivity |].
    split; [exact R1 |]. split; [reflexivity |]. split; [reflexivity |].
    split; [exact R2 |]. split; reflexivity. }
  apply H in Hs. vm_compute in Hs. discriminate Hs.
Qed.

Lemma len_concat_full {T : Type} (n : Z) (full : list (Batch T)) :
  Forall (fun b => len b = n) full ->
  len (List.concat full) = n * len full.
Proof.
  induction 1 as [| b full Hb _ IH]; cbn [List.concat].
  - unfold len. cbn. lia.
  - rewrite len_app, len_cons, IH, Hb. ring.
Qed.

(** Seven envelopes in full batches of 3 and at most one last batch make
    batches of 3, 3 and 1. *)
Lemma seven_in_threes {T : Type} (full last : list (Batch T)) :
  Forall (fun b => len b = 3) full ->
  (List.length last <= 1)%nat ->
  Forall (fun b => 1 <= len b <= 3) (full ++ last) ->
  len (List.concat (full ++ last)) = 7 ->
  map len (full ++ last) = [3; 3; 1].
Proof.
  intros Hfull Hlast Hall Hsum.
  rewrite List.concat_app, len_app, (len_concat_full 3 full Hfull) in Hsum.
  apply Forall_app in Hall as [_ Hl].
  pose proof (len_nonneg full) as Hn.
  destruct last as [| b [| b' last]]; cbn in Hlast; try lia.
  - exfalso. change (len (List.concat (@nil (Batch T)))) with 0 in Hsum. lia.
  - inversion Hl as [| ? ? Hb _]; subst. cbn [List.concat] in Hsum.
    autorewrite with len in Hsum.
    assert (Hf : len full = 2) by lia. assert (Hb1 : len b = 1) by lia.
    destruct full as [| b1 [| b2 [| b3 full]]];
      autorewrite with len in Hf; try lia.
    + inversion Hfull as [| ? ? H1 Hfull']; subst.
      inversion Hfull' as [| ? ? H2 _]; subst.
      cbn. rewrite H1, H2, Hb1. reflexivity.
    + pose proof (len_nonneg full). lia.
Qed.

(** What is delivered is all that was emitted when every enqueued envelope
    was delivered. *)
Lemma all_delivered {T : Type} {ES : EnvelopeSize T} (e : Engine T)
      (tr : list Event)
      (s : State T) :
  1 <= BatchSize (config e) -> MaxWorkers (config e) = 1 ->
  run e tr (init e) = Some s ->
  List.concat (delivered (sinkLog s)) = enqueued s ->
  delivered (sinkLog s) = emitted s.
Proof.
  intros Hsize Hone Hrun Hall.
  destruct (single_worker e tr s Hrun Hone) as (w & _ & Hw).
  destruct (data_in_order e tr s Hrun) as [t Ht].
  destruct (inv_sizes_run e Hsize tr s Hrun) as [Hok _].
  rewrite Hw in Ht, Hok. rewrite List.concat_app, <- app_assoc in Ht.
  rewrite <- Hall in Ht at 1.
  rewrite <- (app_nil_r (List.concat (delivered (sinkLog s)))) in Ht at 1.
  apply app_inv_head in Ht. symmetry in Ht.
  apply app_eq_nil in Ht as [Hrest _].
  apply Forall_app in Hok as [_ Hok].
  destruct (inHand w ++ batchChan s) as [| b rest].
  - rewrite Hw, app_nil_r. reflexivity.
  - exfalso. inversion Hok as [| ? ? Hb _]; subst.
    cbn [List.concat] in Hrest. apply app_eq_nil in Hrest as [-> _].
    unfold okBatch in Hb. cbn in Hb. lia.
Qed.

(** C8 (amended): the emitted batches hold, in their order, a prefix of the
    envelopes in the order of their generation, and with one worker the
    batches handed to the sink are a prefix of the emitted ones; in the
    scenario of seven envelopes the sink gets batches of sizes 3, 3 and 1,
    in that order, in every run in which all seven envelopes are delivered,
    and there is such a run; there is also a run of the scenario in which
    the worker takes the cancellation before it receives the last batch,
    which stays in [batchChan]: the sink gets the sizes 3 and 3. *)
Theorem fifo_single_worker :
  (forall (T : Type) (ES : EnvelopeSize T) (e : Engine T)
          (tr : list Event) (s : State T),
      run e tr (init e) = Some s -> in_order e s) /\
  (forall tr s,
      sevenScenario tr s ->
      List.concat (delivered (sinkLog s)) = enqueued s ->
      map len (delivered (sinkLog s)) = [3; 3; 1]) /\
  (exists tr s,
      sevenScenario tr s /\
      List.concat (delivered (sinkLog s)) = enqueued s) /\
  (exists tr s,
      sevenScenario tr s /\
      map len (delivered (sinkLog s)) = [3; 3] /\
      map len (batchChan s) = [1] /\
      map len (emitted s) = [3; 3; 1]).
Proof.
  split; [| split; [| split]].
  - intros T ES e tr s Hrun. split.
    + apply (data_in_order e tr s Hrun).
    + intros Hone.
      destruct (single_worker e tr s Hrun Hone) as (w & _ & Hw).
      eexists. exact Hw.
  - intros tr s (tr1 & tr2 & s1 & -> & Hok & R1 & _ & _ & R2 & _ & H7) Hall.
    assert (Hrun : run testEngine (tr1 ++ EvCancel :: tr2)
                       (init testEngine) = Some s).
    { rewrite run_app, R1. exact R2. }
    assert (Hsize : 1 <= BatchSize (config testEngine)) by (cbn; lia).
    pose proof (all_delivered testEngine _ s Hsize eq_refl Hrun Hall) as Hde.
    rewrite Hde in Hall |- *.
    destruct (inv_untimed_run testEngine Hsize _ s Hok Hrun)
      as [[Hb _] (full & last & Hem & Hfull & Hlast)].
    rewrite Hem in Hall, Hb |- *. apply seven_in_threes.
    + exact Hfull.
    + destruct (bat s) as [| | [| | |] |];
        [ subst last; cbn; lia | subst last; cbn; lia
        | subst last; cbn; lia | subst last; cbn; lia
        | destruct Hlast as [-> _]; cbn; lia | contradiction
        | exact Hlast ].
    + exact Hb.
    + rewrite Hall. unfold len. rewrite H7. reflexivity.
  - exists sevenDrained.
    eassert (R1 : run testEngine sevenFed (init testEngine) = Some _)
      by (vm_compute; reflexivity).
    match type of R1 with
    | _ = Some ?s1 =>
      eassert (R2 : run testEngine
                      (EvCancel ::
                       [EvGenCtx; EvBatCtx; EvBatSend] ++ publish None ++
                       [EvWorkerCtx 0] ++ shutdown None) s1 = Some _)
        by (vm_compute; reflexivity)
    end.
    eexists. split.
    + eexists _, _, _. split; [reflexivity |]. split; [reflexivity |].
      split; [exact R1 |]. split; [reflexivity |]. split; [reflexivity |].
      split; [exact R2 |]. split; reflexivity.
    + reflexivity.
  - exists sevenCut.
    eassert (R1 : run testEngine sevenFed (init testEngine) = Some _)
      by (vm_compute; reflexivity).
    match type of R1 with
    | _ = Some ?s1 =>
      eassert (R2 : run testEngine
                      (EvCancel ::
                       [EvGenCtx; EvBatCtx; EvBatSend; EvWorkerCtx 0] ++
                       shutdown None) s1 = Some _)
        by (vm_compute; reflexivity)
    end.
    eexists. split.
    + eexists _, _, _. split; [reflexivity |]. split; [reflexivity |].
      split; [exact R1 |]. split; [reflexivity |]. split; [reflexivity |].
      split; [exact R2 |]. split; reflexivity.
    + repeat split; reflexivity.
Qed.

(** C8 (amended) on the run of seven envelopes whose worker returns before
    its last receive: the two batches delivered are the first two emitted,
    in order. *)
Lemma fifo_single_worker_witness :
  exists s,
    run testEngine sevenCut (init testEngine) = Some s /\
    map len (delivered (sinkLog s)) = [3; 3] /\
    in_order testEngine s.
Proof.
  eexists. split; [vm_compute; reflexivity |]. split; [reflexivity |].
  apply (proj1 fifo_single_worker float _ testEngine sevenCut).
  vm_compute. reflexivity.
Defined.

(** * More on the pipeline *)

(** ** Panics *)

(** X1: [Start] can panic exactly when [time.NewTicker] or [make] refuse
    the configuration: a production rate or a batch timeout that is not
    positive, a negative batch size, or a batch size whose envelopes take
    more than [maxAlloc] bytes. On every other configuration no run
    panics: no goroutine sends on a closed channel and no channel is closed
    twice. *)
Theorem panic_iff_bad_config {T : Type} {ES : EnvelopeSize T} (e : Engine T) :
  (exists tr s, run e tr (init e) = Some s /\ panicked s = true) <->
  (ProductionRate (config e) <= 0 \/ BatchSize (config e) < 0 \/
   maxAlloc < sizeofSensorData T * BatchSize (config e) \/
   BatchTimeout (config e) <= 0).
Proof.
  split.
  - intros (tr & s & Hrun & Hp).
    destruct (Z_lt_le_dec 0 (ProductionRate (config e))) as [HR | HR];
      [| lia].
    destruct (Z_le_gt_dec 0 (BatchSize (config e))) as [HS | HS]; [| lia].
    destruct (Z_le_gt_dec (sizeofSensorData T * BatchSize (config e))
                          maxAlloc) as [HF | HF]; [| lia].
    destruct (Z_lt_le_dec 0 (BatchTimeout (config e))) as [HT | HT]; [| lia].
    rewrite (never_panics e HR HS HF HT tr s Hrun) in Hp. discriminate.
  - intros [HR | [HS | [HF | HT]]].
    + exists [EvGenInit]. cbn. apply Z.leb_le in HR. rewrite HR.
      eexists. split; reflexivity.
    + exists [EvBatInit]. cbn. unfold makeslicePanics.
      apply Z.ltb_lt in HS. rewrite HS.
      eexists. split; reflexivity.
    + exists [EvBatInit]. cbn. unfold makeslicePanics.
      apply Z.ltb_lt in HF. rewrite HF, orb_true_r.
      eexists. split; reflexivity.
    + exists [EvBatInit]. cbn. apply Z.leb_le in HT. rewrite HT.
      destruct (makeslicePanics T (BatchSize (config e)));
        eexists; split; reflexivity.
Qed.

(** ** The order of the shutdown *)

(** X2: a channel is closed only after the goroutine that sends on it has
    returned, and when [Start] has returned the context was cancelled, the
    generator, the batcher and every worker have returned, and both
    channels are closed. *)
Theorem start_returns_last {T : Type} {ES : EnvelopeSize T} (e : Engine T)
        (tr : list Event)
        (s : State T) :
  run e tr (init e) = Some s ->
  (dataClosed s = true -> gen s = GDone) /\
  (batchClosed s = true -> bat s = BDone) /\
  (returned s = true ->
   cancelled s = true /\ gen s = GDone /\ bat s = BDone /\
   forallb isWDone (workers s) = true /\
   dataClosed s = true /\ batchClosed s = true).
Proof.
  intros Hrun.
  destruct (inv_shutdown_run e tr s Hrun) as (Ho & Hd & Hb & _).
  split; [exact Hd |]. split; [exact Hb |].
  unfold returned, inv_orch in *. destruct (orch s); try discriminate.
  intros _. destruct Ho as (Hc & Hdc & Hbc & Hall & _).
  repeat split; auto.
Qed.

(** X2 on the run of seven envelopes. *)
Lemma start_returns_last_witness :
  exists s,
    run testEngine sevenDrained (init testEngine) = Some s /\
    returned s = true /\ gen s = GDone /\ bat s = BDone.
Proof.
  eexists. split; [vm_compute; reflexivity |]. split; [reflexivity |].
  assert (H : run testEngine sevenDrained (init testEngine) = Some _)
    by (vm_compute; reflexivity).
  destruct (start_returns_last testEngine sevenDrained _ H) as (_ & _ & Hr).
  destruct (Hr eq_refl) as (_ & Hg & Hb & _). split; assumption.
Defined.

(** ** How many calls to the sink are in flight *)

Lemma calling_bounds {T : Type} (ws : list (WorkerPC T)) :
  0 <= calling ws <= len ws.
Proof.
  induction ws as [| w ws IH]; cbn [calling].
  - unfold len. cbn. lia.
  - rewrite len_cons. destruct w; cbn [inCall]; lia.
Qed.

(** X3: at any time the number of [PublishBatch] calls that have not
    returned is the number of workers inside the call: never negative and
    never more than [MaxWorkers]. *)
Theorem publish_calls_bounded {T : Type} {ES : EnvelopeSize T} (e : Engine T)
        (tr : list Event)
        (s : State T) :
  run e tr (init e) = Some s ->
  outstanding (sinkLog s) = calling (workers s) /\
  0 <= outstanding (sinkLog s) <= Z.max 0 (MaxWorkers (config e)).
Proof.
  intros Hrun.
  destruct (inv_shutdown_run e tr s Hrun) as (_ & _ & _ & Hl & Hc & _).
  split; [symmetry; exact Hc |].
  rewrite <- Hc. pose proof (calling_bounds (workers s)) as Hb.
  unfold len in Hb. rewrite Hl in Hb. lia.
Qed.

(** X3 with two workers, both inside [PublishBatch]. *)
Lemma publish_calls_bounded_witness :
  exists s,
    run twoWorkerEngine overtaking (init twoWorkerEngine) = Some s /\
    outstanding (sinkLog s) = 2 /\
    0 <= outstanding (sinkLog s) <= 2.
Proof.
  eexists. split; [vm_compute; reflexivity |]. split; [reflexivity |].
  apply (publish_calls_bounded twoWorkerEngine overtaking).
  vm_compute. reflexivity.
Defined.

(** ** Batch sizes on every configuration *)

Section SizesAny.
Context {T : Type} {ES : EnvelopeSize T}.
Variable e : Engine T.

Lemma inv_sizes_any_step ev s s' :
  inv_sizes_any e s -> step e ev s = Some s' -> inv_sizes_any e s'.
Proof.
  unfold inv_sizes_any, maxBatch. intros [He Hb] Hs.
  destruct ev; step_cases Hs; simpl_state;
    repeat match goal with
    | H : bat _ = _ |- _ => progress rewrite H in *
    end;
    zbool; autorewrite with len in *;
    try (split; [assumption || (apply Forall_app; split; auto) | lia || auto]).
  all: match goal with
       | |- context [len (batch ?x)] => pose proof (len_nonneg (batch x))
       end; lia.
Qed.

Lemma inv_sizes_any_run tr s :
  run e tr (init e) = Some s -> inv_sizes_any e s.
Proof.
  apply run_invariant; [exact inv_sizes_any_step |].
  unfold inv_sizes_any. cbn. auto.
Qed.
End SizesAny.

(** X4: on every configuration, no empty batch is sent on [batchChan] and
    no batch is longer than the larger of 1 and [BatchSize]; with a batch
    size of 0 or 1 every batch holds exactly one envelope. *)
Theorem batch_sizes_any_config {T : Type} {ES : EnvelopeSize T} (e : Engine T)
        (tr : list Event)
        (s : State T) :
  run e tr (init e) = Some s ->
  Forall (fun b => 1 <= len b <= Z.max 1 (BatchSize (config e)))
         (emitted s) /\
  (BatchSize (config e) <= 1 -> Forall (fun b => len b = 1) (emitted s)).
Proof.
  intros Hrun. destruct (inv_sizes_any_run e tr s Hrun) as [He _].
  unfold maxBatch in He. split; [exact He |].
  intros Hsmall. eapply Forall_impl; [| exact He]. cbv beta. intros b Hb.
  lia.
Qed.

(** X4 for a batch size of 0: three envelopes, three batches. *)
Lemma batch_sizes_any_config_witness :
  exists s,
    run zeroBatchEngine zeroBatchRun (init zeroBatchEngine) = Some s /\
    List.length (emitted s) = 3%nat /\
    Forall (fun b => len b = 1) (emitted s).
Proof.
  eexists. split; [vm_compute; reflexivity |]. split; [reflexivity |].
  apply (batch_sizes_any_config zeroBatchEngine zeroBatchRun).
  - vm_compute. reflexivity.
  - vm_compute. discriminate.
Defined.

(** ** No worker *)

Section NoWorker.
Context {T : Type} {ES : EnvelopeSize T}.
Variable e : Engine T.

Lemma inv_no_worker_step ev s s' :
  inv_no_worker s -> step e ev s = Some s' -> inv_no_worker s'.
Proof.
  unfold inv_no_worker. intros Hi Hs.
  destruct ev; step_cases Hs; simpl_state;
    try exact Hi;
    try (intros Hw; apply (f_equal (@List.length _)) in Hw;
         rewrite set_nth_length in Hw;
         destruct (workers s); [destruct w; discriminate | discriminate]);
    intros Hw; destruct (Hi Hw) as [Hem Hlog];
    (split; [rewrite ?Hem; try reflexivity
            | try assumption; try (apply Forall_app; split; auto)]).
  all: repeat match goal with
       | H : batchChan _ = _ |- _ => rewrite H in *
       end; auto.
Qed.

Lemma inv_no_worker_run tr s :
  run e tr (init e) = Some s -> inv_no_worker s.
Proof.
  apply run_invariant; [exact inv_no_worker_step |].
  unfold inv_no_worker. cbn. auto.
Qed.
End NoWorker.

(** X5: with [MaxWorkers <= 0] no worker is started: no batch is ever
    handed to the sink, whose only call is [Close]; the batches stay in
    [batchChan], so at most 10 are ever emitted. *)
Theorem no_worker_no_delivery {T : Type} {ES : EnvelopeSize T} (e : Engine T)
        (tr : list Event)
        (s : State T) :
  MaxWorkers (config e) <= 0 ->
  run e tr (init e) = Some s ->
  delivered (sinkLog s) = [] /\
  Forall (fun c => isClose c = true) (sinkLog s) /\
  emitted s = batchChan s /\ len (emitted s) <= 10.
Proof.
  intros Hno Hrun.
  destruct (inv_shutdown_run e tr s Hrun) as (_ & _ & _ & Hl & _).
  assert (Hw : workers s = []).
  { destruct (workers s); [reflexivity |]. cbn in Hl. lia. }
  destruct (inv_no_worker_run e tr s Hrun Hw) as [Hem Hlog].
  destruct (inv_caps_run e tr s Hrun) as [_ Hcap].
  unfold batchChanCap in Hcap. rewrite Hem.
  repeat split; try assumption.
  clear - Hlog. induction Hlog as [| c log Hc _ IH]; [reflexivity |].
  destruct c; try discriminate. exact IH.
Qed.

(** X5 on a run without workers: two batches are emitted, [Start] returns,
    the sink has seen [Close] only. *)
Lemma no_worker_no_delivery_witness :
  exists s,
    run noWorkerEngine noWorkerRun (init noWorkerEngine) = Some s /\
    returned s = true /\ List.length (emitted s) = 2%nat /\
    delivered (sinkLog s) = [].
Proof.
  eexists. split; [vm_compute; reflexivity |]. split; [reflexivity |].
  split; [reflexivity |].
  apply (no_worker_no_delivery noWorkerEngine noWorkerRun).
  - vm_compute. discriminate.
  - vm_compute. reflexivity.
Defined.

(** ** Any number of workers *)

Section ManyWorkers.
Context {T : Type} {ES : EnvelopeSize T}.
Variable e : Engine T.

Lemma inHands_set_nth (ws : list (WorkerPC T)) (w : nat)
      (old new : WorkerPC T) :
  nth_error ws w = Some old ->
  Permutation (inHand old ++ inHands (set_nth w new ws))
              (inHand new ++ inHands ws).
Proof.
  revert w. induction ws as [| h t IH]; intros [| j] H; cbn in H;
    try discriminate.
  - injection H as ->. cbn [set_nth inHands flat_map].
    apply Permutation_app_swap_app.
  - cbn [set_nth inHands flat_map]. fold (inHands (set_nth j new t)).
    fold (inHands t).
    rewrite Permutation_app_swap_app, (IH j H).
    apply Permutation_app_swap_app.
Qed.

Lemma inv_perm_step ev s s' :
  inv_perm s -> step e ev s = Some s' -> inv_perm s'.
Proof.
  unfold inv_perm. intros Hp Hs.
  destruct ev; step_cases Hs; simpl_state; try exact Hp;
    rewrite ?delivered_snoc, ?app_nil_r;
    try match goal with
        | H : nth_error (workers _) _ = Some ?old
          |- context [set_nth ?w ?new _] =>
          pose proof (inHands_set_nth _ w old new H) as Hw;
          cbn [inHand app] in Hw
        end;
    repeat match goal with
    | H : batchChan _ = _ |- _ => rewrite H in *
    end.
  - (* the batcher sends a batch, in one of its four places *)
    rewrite !app_assoc. apply Permutation_app_tail.
    rewrite <- app_assoc. exact Hp.
  - rewrite !app_assoc. apply Permutation_app_tail.
    rewrite <- app_assoc. exact Hp.
  - rewrite !app_assoc. apply Permutation_app_tail.
    rewrite <- app_assoc. exact Hp.
  - rewrite !app_assoc. apply Permutation_app_tail.
    rewrite <- app_assoc. exact Hp.
  - (* a worker returns on cancellation *)
    rewrite Hw. exact Hp.
  - (* a worker returns on the closed [batchChan] *)
    rewrite Hw. exact Hp.
  - (* a worker receives a batch *)
    rewrite Hw, Hp. apply Permutation_app_head.
    symmetry. apply Permutation_middle.
  - (* a worker hands its batch to the sink *)
    rewrite <- app_assoc, Hp, <- Hw. reflexivity.
  - (* [PublishBatch] returns an error *)
    rewrite Hw. exact Hp.
  - (* [PublishBatch] returns *)
    rewrite Hw. exact Hp.
  - (* a worker prints an error *)
    rewrite Hw. exact Hp.
  - (* [Close] *)
    exact Hp.
  - exact Hp.
Qed.

Lemma inv_perm_run tr s : run e tr (init e) = Some s -> inv_perm s.
Proof.
  apply run_invariant; [exact inv_perm_step |].
  unfold inv_perm. cbn.
  induction (Z.to_nat (MaxWorkers (config e))); cbn; auto.
Qed.

Lemma inv_built_step ev s s' :
  inv_built e s -> step e ev s = Some s' -> inv_built e s'.
Proof.
  unfold inv_built. intros Hb Hs.
  destruct ev; step_cases Hs; simpl_state; try exact Hb.
  apply Forall_app. split; [exact Hb |].
  constructor; [| constructor]. unfold wellBuilt. cbn.
  repeat split; eexists; reflexivity.
Qed.

Lemma inv_built_run tr s : run e tr (init e) = Some s -> inv_built e s.
Proof.
  apply run_invariant; [exact inv_built_step |]. constructor.
Qed.

Lemma errorLines_snoc (log : list (SinkCall T)) (c : SinkCall T) :
  errorLines (log ++ [c]) =
  errorLines log ++
  match c with
  | PublishBatchRet _ (Some m) => [publishErrorLine m]
  | _ => []
  end.
Proof.
  induction log as [| h t IH]; cbn.
  - destruct c as [| ? [] |]; reflexivity.
  - destruct h as [| ? [] |]; rewrite IH; reflexivity.
Qed.

Lemma toPrints_set_nth (ws : list (WorkerPC T)) (w : nat)
      (old new : WorkerPC T) :
  nth_error ws w = Some old ->
  Permutation (toPrint old ++ toPrints (set_nth w new ws))
              (toPrint new ++ toPrints ws).
Proof.
  revert w. induction ws as [| h t IH]; intros [| j] H; cbn in H;
    try discriminate.
  - injection H as ->. cbn [set_nth toPrints flat_map].
    apply Permutation_app_swap_app.
  - cbn [set_nth toPrints flat_map]. fold (toPrints (set_nth j new t)).
    fold (toPrints t).
    rewrite Permutation_app_swap_app, (IH j H).
    apply Permutation_app_swap_app.
Qed.

(** The worker of a pipeline with one worker. *)
Lemma single_set_nth (ws : list (WorkerPC T)) (w : nat)
      (old new w' : WorkerPC T) :
  nth_error ws w = Some old -> set_nth w new ws = [w'] ->
  ws = [old] /\ w' = new.
Proof.
  destruct ws as [| h [| h' t]]; destruct w as [| j]; cbn;
    try discriminate.
  - intros H1 H2. injection H1 as ->. injection H2 as ->. auto.
  - destruct j; discriminate.
  - destruct j; cbn; discriminate.
Qed.

Lemma inv_stdout_step ev s s' :
  inv_stdout s -> step e ev s = Some s' -> inv_stdout s'.
Proof.
  unfold inv_stdout. intros [Hperm Hone] Hs.
  destruct ev; step_cases Hs; simpl_state; try (split; assumption);
    rewrite ?errorLines_snoc, ?app_nil_r;
    match goal with
    | H : nth_error (workers _) _ = Some ?old
      |- context [set_nth ?w ?new _] =>
      pose proof (toPrints_set_nth _ w old new H) as Hw;
      cbn [toPrint app] in Hw;
      (split;
       [| let w1 := fresh "w1" in
          let H1 := fresh "H1" in
          intros w1 H1;
          destruct (single_set_nth _ _ _ _ _ H H1) as [Hws ->];
          specialize (Hone _ Hws); cbn [toPrint] in Hone |- *;
          rewrite ?app_nil_r in *])
    | _ => split; [exact Hperm | exact Hone]
    end;
    try (rewrite Hw; exact Hperm); try exact Hone.
  - (* [PublishBatch] returns an error *)
    rewrite Hw, Hperm, <- app_assoc.
    apply Permutation_app_head. symmetry. apply Permutation_cons_append.
  - rewrite Hone. reflexivity.
  - (* a worker prints an error *)
    rewrite <- app_assoc. cbn [app]. rewrite Hw. exact Hperm.
Qed.

Lemma inv_stdout_run tr s : run e tr (init e) = Some s -> inv_stdout s.
Proof.
  apply run_invariant; [exact inv_stdout_step |].
  assert (H : forall n, toPrints (repeat (@WSelect T) n) = []).
  { induction n; cbn; auto. }
  unfold inv_stdout, init. cbn [sinkLog stdout workers errorLines app].
  rewrite H. split; [constructor |].
  intros w Hw. destruct (Z.to_nat (MaxWorkers (config e))) as [| [| n]];
    try discriminate. injection Hw as <-. reflexivity.
Qed.

Lemma toPrints_done (ws : list (WorkerPC T)) :
  forallb isWDone ws = true -> toPrints ws = [].
Proof.
  induction ws as [| w ws IH]; cbn; [reflexivity |].
  intros H. apply andb_true_iff in H as [Hw Hws].
  destruct w; try discriminate. cbn. fold (toPrints ws). auto.
Qed.

Lemma inv_untimed_any_step ev s s' :
  notBatTick ev = true ->
  inv_sizes_any e s /\ inv_untimed_any e s ->
  step e ev s = Some s' ->
  inv_sizes_any e s' /\ inv_untimed_any e s'.
Proof.
  intros Hev [Hsz Hun] Hs.
  split; [exact (inv_sizes_any_step e ev s s' Hsz Hs) |].
  destruct Hsz as [_ Hsz]. destruct Hun as (full & last & Hem & Hfull & Hbat).
  unfold inv_untimed_any, maxBatch in *.
  destruct ev; try discriminate Hev; step_cases Hs; simpl_state;
    repeat match goal with
    | H : bat _ = _ |- _ => progress rewrite H in *
    end;
    zbool; autorewrite with len in *;
    try (exists full, last; repeat split; solve [auto | lia]).
  - (* the batcher returns on cancellation with an empty batch *)
    subst last. exists full, []. auto.
  - (* the batcher returns on the closed [dataChan] with an empty batch *)
    subst last. exists full, []. auto.
  - (* an envelope fills the batch *)
    exists full, last. repeat split; auto.
    pose proof (len_nonneg (batch s)). autorewrite with len in *. lia.
  - (* the batcher sends its last batch on cancellation *)
    subst last. exists full, [batch s]. rewrite Hem, app_nil_r. auto.
  - (* the batcher sends its last batch, [dataChan] being closed *)
    subst last. exists full, [batch s]. rewrite Hem, app_nil_r. auto.
  - (* a full batch is sent *)
    destruct Hbat as [-> Hlen]. exists (full ++ [batch s]), [].
    rewrite Hem, !app_nil_r. repeat split; auto.
    apply Forall_app. split; auto.
  - (* the batcher returns without sending *)
    exists full, []. rewrite Hem.
    destruct k;
      [subst last | subst last | destruct Hbat as [-> _] | contradiction];
      auto.
Qed.

Lemma inv_untimed_any_run tr s :
  forallb notBatTick tr = true ->
  run e tr (init e) = Some s ->
  inv_sizes_any e s /\ inv_untimed_any e s.
Proof.
  intros Hok.
  apply (run_invariant_on e notBatTick
           (fun s => inv_sizes_any e s /\ inv_untimed_any e s));
    [intros; eapply inv_untimed_any_step; eassumption | exact Hok |].
  split.
  - apply (inv_sizes_any_run e []). reflexivity.
  - exists [], []. cbn. auto.
Qed.

(** What was sent on [dataChan] was built by the generator. *)
Lemma enqueued_generated tr s :
  run e tr (init e) = Some s -> incl (enqueued s) (generated s).
Proof.
  intros Hrun. destruct (inv_gen_run e tr s Hrun) as (_ & _ & Hg).
  destruct (gen s); try (rewrite Hg; apply incl_refl).
  - rewrite Hg. apply incl_appl, incl_refl.
  - destruct Hg as (tl & -> & _). apply incl_appl, incl_refl.
Qed.
End ManyWorkers.

(** X6: for any number of workers, the batches handed to the sink, those in
    the workers' hands and those waiting in [batchChan] are together a
    permutation of the batches that the batcher has sent: no batch is
    delivered twice and none is made up, though with several workers they
    may reach the sink in another order. *)
Theorem batches_permuted {T : Type} {ES : EnvelopeSize T} (e : Engine T)
        (tr : list Event)
        (s : State T) :
  run e tr (init e) = Some s ->
  Permutation (emitted s)
              (delivered (sinkLog s) ++ inHands (workers s) ++ batchChan s) /\
  (List.length (delivered (sinkLog s)) <= List.length (emitted s))%nat.
Proof.
  intros Hrun. pose proof (inv_perm_run e tr s Hrun) as Hp.
  split; [exact Hp |].
  apply Permutation_length in Hp. rewrite !length_app in Hp. lia.
Qed.

(** X6 with two workers: the second batch is delivered before the first. *)
Lemma batches_permuted_witness :
  exists s,
    run twoWorkerEngine overtaking (init twoWorkerEngine) = Some s /\
    map (map ID) (emitted s) = [["sensor-0"]; ["sensor-1"]; ["sensor-2"]] /\
    map (map ID) (delivered (sinkLog s)) = [["sensor-1"]; ["sensor-0"]] /\
    Permutation (emitted s)
      (delivered (sinkLog s) ++ inHands (workers s) ++ batchChan s).
Proof.
  eexists. split; [vm_compute; reflexivity |]. split; [reflexivity |].
  split; [reflexivity |].
  apply (batches_permuted twoWorkerEngine overtaking).
  vm_compute. reflexivity.
Defined.

(** X7: for any number of workers and any configuration, every batch that
    the sink receives has between 1 and max(1, BatchSize) envelopes, and
    every envelope in it was built by the generator: its identifier is a
    counter value, its quality that of a draw, its payload the sensor
    function at its own timestamp. *)
Theorem sink_receives_built_batches {T : Type} {ES : EnvelopeSize T}
        (e : Engine T)
        (tr : list Event) (s : State T) :
  run e tr (init e) = Some s ->
  Forall (fun b =>
            1 <= len b <= Z.max 1 (BatchSize (config e)) /\
            Forall (fun d => In d (generated s) /\ wellBuilt e d) b)
         (delivered (sinkLog s)).
Proof.
  intros Hrun.
  pose proof (inv_perm_run e tr s Hrun) as Hp.
  destruct (inv_sizes_any_run e tr s Hrun) as [Hsz _].
  pose proof (inv_built_run e tr s Hrun) as Hb.
  destruct (data_in_order e tr s Hrun) as [t Ht].
  pose proof (enqueued_generated e tr s Hrun) as Hin.
  unfold maxBatch in Hsz. unfold inv_built in Hb.
  rewrite Forall_forall in Hsz, Hb.
  apply Forall_forall. intros b Hd.
  assert (He : In b (emitted s)).
  { apply (Permutation_in b (Permutation_sym Hp)). apply in_or_app. auto. }
  split; [apply Hsz, He |].
  apply Forall_forall. intros d Hdb.
  assert (Hg : In d (generated s)).
  { apply Hin. rewrite Ht. apply in_or_app. left.
    apply in_concat. exists b. auto. }
  split; [exact Hg | apply Hb, Hg].
Qed.

(** X7 on the run with two workers. *)
Lemma sink_receives_built_batches_witness :
  exists s,
    run twoWorkerEngine overtaking (init twoWorkerEngine) = Some s /\
    List.length (delivered (sinkLog s)) = 2%nat /\
    Forall (fun b =>
              1 <= len b <= 1 /\
              Forall (fun d => In d (generated s) /\
                               wellBuilt twoWorkerEngine d) b)
           (delivered (sinkLog s)).
Proof.
  eexists. split; [vm_compute; reflexivity |]. split; [reflexivity |].
  apply (sink_receives_built_batches twoWorkerEngine overtaking).
  vm_compute. reflexivity.
Defined.

(** X8: [publishWorker] prints one line for every [PublishBatch] call that
    returned an error, and the pipeline prints nothing else: the lines
    printed, with those that workers back from a failed call are about to
    print, are a permutation of the error lines of the sink log. With one
    worker the lines are printed in the order of the returns; with several,
    a worker can print before another whose call returned first. When
    [Start] has returned every error has its line. *)
Theorem stdout_is_error_lines {T : Type} {ES : EnvelopeSize T} (e : Engine T)
        (tr : list Event) (s : State T) :
  run e tr (init e) = Some s ->
  Permutation (errorLines (sinkLog s)) (stdout s ++ toPrints (workers s)) /\
  (MaxWorkers (config e) = 1 ->
   exists w, workers s = [w] /\
             errorLines (sinkLog s) = stdout s ++ toPrint w) /\
  (returned s = true -> Permutation (errorLines (sinkLog s)) (stdout s)).
Proof.
  intros Hrun. destruct (inv_stdout_run e tr s Hrun) as [Hperm Hone].
  destruct (inv_shutdown_run e tr s Hrun) as (Ho & _ & _ & Hlen & _).
  split; [exact Hperm |]. split.
  - intros HW. rewrite HW in Hlen.
    destruct (workers s) as [| w [| w' ws]] eqn:Hws; try discriminate.
    exists w. split; [reflexivity |]. apply Hone. reflexivity.
  - intros Hret. unfold returned, inv_orch in *.
    destruct (orch s); try discriminate.
    destruct Ho as (_ & _ & _ & Hall & _).
    rewrite (toPrints_done _ Hall), app_nil_r in Hperm. exact Hperm.
Qed.

(** X8 on a run of two workers whose calls both fail: the worker whose
    call returned last prints first. *)
Lemma stdout_is_error_lines_witness :
  exists s,
    run twoWorkerEngine printsSwapped (init twoWorkerEngine) = Some s /\
    errorLines (sinkLog s) =
    [publishErrorLine "first"; publishErrorLine "second"] /\
    stdout s = [publishErrorLine "second"; publishErrorLine "first"] /\
    Permutation (errorLines (sinkLog s)) (stdout s ++ toPrints (workers s)).
Proof.
  eexists. split; [vm_compute; reflexivity |].
  split; [reflexivity |]. split; [reflexivity |].
  refine (proj1 (stdout_is_error_lines twoWorkerEngine printsSwapped _ _)).
  vm_compute. reflexivity.
Defined.

(** X9: as long as the batch timer has not fired and the batcher has not
    returned, every batch sent on [batchChan] is full: it has exactly
    [BatchSize] envelopes, or one where [BatchSize] is less than 1. *)
Theorem untimed_batches_full {T : Type} {ES : EnvelopeSize T} (e : Engine T)
        (tr : list Event) (s : State T) :
  forallb notBatTick tr = true ->
  run e tr (init e) = Some s ->
  bat s <> BDone ->
  Forall (fun b => len b = Z.max 1 (BatchSize (config e))) (emitted s).
Proof.
  intros Hok Hrun Hbat.
  destruct (inv_untimed_any_run e tr s Hok Hrun)
    as [_ (full & last & Hem & Hfull & Hlast)].
  assert (Hnil : last = []).
  { destruct (bat s) as [| | [| | |] |]; try congruence;
      try contradiction; try exact Hlast. apply Hlast. }
  rewrite Hem, Hnil, app_nil_r. exact Hfull.
Qed.

(** X9 on the run of seven envelopes before its cancellation. *)
Lemma untimed_batches_full_witness :
  exists s,
    run testEngine sevenFed (init testEngine) = Some s /\
    map len (emitted s) = [3; 3] /\
    Forall (fun b => len b = 3) (emitted s).
Proof.
  eexists. split; [vm_compute; reflexivity |]. split; [reflexivity |].
  apply (untimed_batches_full testEngine sevenFed).
  - reflexivity.
  - vm_compute. reflexivity.
  - discriminate.
Defined.

(** ** The shutdown can always be completed *)

Lemma set_nth_same {A : Type} (i : nat) (x : A) (l : list A) :
  nth_error l i = Some x -> set_nth i x l = l.
Proof.
  revert i. induction l as [| h t IH]; intros [| j] H; cbn in *;
    try discriminate.
  - injection H as ->. reflexivity.
  - rewrite (IH j H). reflexivity.
Qed.

Lemma set_nth_twice {A : Type} (i : nat) (x y : A) (l : list A) :
  set_nth i x (set_nth i y l) = set_nth i x l.
Proof.
  revert i. induction l as [| h t IH]; intros [| j]; cbn; try reflexivity.
  rewrite IH. reflexivity.
Qed.

Lemma set_nth_app {A : Type} (x y : A) (pre rest : list A) :
  set_nth (List.length pre) x (pre ++ y :: rest) = pre ++ x :: rest.
Proof.
  induction pre as [| h t IH]; cbn; [reflexivity |]. rewrite IH. reflexivity.
Qed.

Lemma nth_error_middle {A : Type} (y : A) (pre rest : list A) :
  nth_error (pre ++ y :: rest) (List.length pre) = Some y.
Proof.
  induction pre as [| h t IH]; cbn; [reflexivity | exact IH].
Qed.

Section Leaving.
Context {T : Type} {ES : EnvelopeSize T}.
Variable e : Engine T.
Hypothesis HRate : 0 < ProductionRate (config e).
Hypothesis HSize : 0 <= BatchSize (config e).
Hypothesis HFits : sizeofSensorData T * BatchSize (config e) <= maxAlloc.
Hypothesis HTimeout : 0 < BatchTimeout (config e).

(** The generator leaves. *)
Lemma generator_leaves (s : State T) :
  panicked s = false -> cancelled s = true ->
  exists s1,
    run e (genExit (gen s)) s = Some s1 /\ gen s1 = GDone /\
    panicked s1 = false /\ cancelled s1 = true /\
    bat s1 = bat s /\ batch s1 = batch s /\
    workers s1 = workers s /\ orch s1 = orch s.
Proof.
  intros Hp Hc.
  assert (Hr : (ProductionRate (config e) <=? 0) = false)
    by (apply Z.leb_gt; exact HRate).
  destruct s as [c p dc dcl bc bcl g cnt b bt ws o log out gn en em].
  cbn in Hp, Hc. subst c p.
  destruct g; cbn; rewrite ?Hr; cbn; eexists;
    (split; [reflexivity |]); cbn; repeat split.
Qed.

(** The batcher leaves. *)
Lemma batcher_leaves (s : State T) :
  panicked s = false -> cancelled s = true ->
  exists s1,
    run e (batExit (bat s) (batch s)) s = Some s1 /\ bat s1 = BDone /\
    panicked s1 = false /\ cancelled s1 = true /\
    gen s1 = gen s /\ workers s1 = workers s /\ orch s1 = orch s.
Proof.
  intros Hp Hc.
  assert (Hs : makeslicePanics T (BatchSize (config e)) = false).
  { unfold makeslicePanics. apply orb_false_iff. split.
    - apply Z.ltb_ge. exact HSize.
    - apply Z.ltb_ge. exact HFits. }
  assert (Ht : (BatchTimeout (config e) <=? 0) = false)
    by (apply Z.leb_gt; exact HTimeout).
  destruct s as [c p dc dcl bc bcl g cnt b bt ws o log out gn en em].
  cbn in Hp, Hc. subst c p.
  destruct b as [| | k |]; cbn [batExit bat batch].
  - cbn. rewrite Hs, Ht. cbn. eexists. split; [reflexivity |].
    cbn. repeat split.
  - destruct (0 <? len bt) eqn:Hlen; cbn; rewrite Hlen; cbn;
      eexists; (split; [reflexivity |]); cbn; repeat split.
  - cbn. eexists. split; [reflexivity |]. cbn. repeat split.
  - cbn. eexists. split; [reflexivity |]. cbn. repeat split.
Qed.

Lemma step_worker_ctx (s : State T) (w : nat) :
  panicked s = false -> cancelled s = true ->
  nth_error (workers s) w = Some WSelect ->
  step e (EvWorkerCtx w) s = Some (set_worker w WDone s).
Proof. intros Hp Hc Hw. unfold step. rewrite Hp, Hw, Hc. reflexivity. Qed.

Lemma step_worker_call (s : State T) (w : nat) (b : Batch T) :
  panicked s = false ->
  nth_error (workers s) w = Some (WCall b) ->
  step e (EvWorkerCall w) s =
  Some (set_worker w WWait
          (set_sinkLog (sinkLog s ++ [PublishBatchCall w b]) s)).
Proof. intros Hp Hw. unfold step. rewrite Hp, Hw. reflexivity. Qed.

Lemma step_worker_print (s : State T) (w : nat) (m : string) :
  panicked s = false ->
  nth_error (workers s) w = Some (WPrint m) ->
  step e (EvWorkerPrint w) s =
  Some (set_worker w WSelect
          (set_stdout (stdout s ++ [publishErrorLine m]) s)).
Proof. intros Hp Hw. unfold step. rewrite Hp, Hw. reflexivity. Qed.

Lemma step_worker_ret (s : State T) (w : nat) :
  panicked s = false ->
  nth_error (workers s) w = Some WWait ->
  step e (EvWorkerRet w None) s =
  Some (set_worker w WSelect
          (set_sinkLog (sinkLog s ++ [PublishBatchRet w None]) s)).
Proof. intros Hp Hw. unfold step. rewrite Hp, Hw. reflexivity. Qed.

(** One worker leaves: it hands over the batch it holds, waits for
    [PublishBatch] to return, and takes the cancellation at its next
    [select]. *)
Lemma worker_leaves (s : State T) (w : nat) (pc : WorkerPC T) :
  panicked s = false -> cancelled s = true ->
  nth_error (workers s) w = Some pc ->
  exists s1,
    run e (workerExit w pc) s = Some s1 /\
    workers s1 = set_nth w WDone (workers s) /\
    panicked s1 = false /\ cancelled s1 = true /\
    gen s1 = gen s /\ bat s1 = bat s /\ orch s1 = orch s.
Proof.
  intros Hp Hc Hw.
  destruct pc as [| b | | m |]; cbn [workerExit run].
  - rewrite (step_worker_ctx s w Hp Hc Hw).
    eexists. split; [reflexivity |]. simpl_state. repeat split; assumption.
  - rewrite (step_worker_call s w b Hp Hw).
    rewrite step_worker_ret
      by (simpl_state;
          first [assumption | eapply nth_error_set_nth; eassumption]).
    rewrite step_worker_ctx
      by (simpl_state;
          first [assumption
                | eapply nth_error_set_nth, nth_error_set_nth; eassumption]).
    eexists. split; [reflexivity |]. simpl_state.
    rewrite !set_nth_twice. repeat split; assumption.
  - rewrite (step_worker_ret s w Hp Hw).
    rewrite step_worker_ctx
      by (simpl_state;
          first [assumption | eapply nth_error_set_nth; eassumption]).
    eexists. split; [reflexivity |]. simpl_state.
    rewrite !set_nth_twice. repeat split; assumption.
  - rewrite (step_worker_print s w m Hp Hw).
    rewrite step_worker_ctx
      by (simpl_state;
          first [assumption | eapply nth_error_set_nth; eassumption]).
    eexists. split; [reflexivity |]. simpl_state.
    rewrite !set_nth_twice. repeat split; assumption.
  - exists s. split; [reflexivity |].
    rewrite (set_nth_same _ _ _ Hw). repeat split; assumption.
Qed.

(** All the workers leave, one after the other. *)
Lemma workers_leave (rest pre : list (WorkerPC T)) (s : State T) :
  panicked s = false -> cancelled s = true ->
  workers s = pre ++ rest ->
  exists s1,
    run e (workersExit (List.length pre) rest) s = Some s1 /\
    workers s1 = pre ++ map (fun _ => WDone) rest /\
    panicked s1 = false /\ cancelled s1 = true /\
    gen s1 = gen s /\ bat s1 = bat s /\ orch s1 = orch s.
Proof.
  revert pre s. induction rest as [| pc rest IH]; intros pre s Hp Hc Hws.
  - exists s. cbn. rewrite Hws. repeat split; auto.
  - cbn [workersExit map].
    assert (Hw : nth_error (workers s) (List.length pre) = Some pc)
      by (rewrite Hws; apply nth_error_middle).
    destruct (worker_leaves s _ pc Hp Hc Hw)
      as (s1 & Hrun1 & Hws1 & Hp1 & Hc1 & Hg1 & Hb1 & Ho1).
    rewrite Hws, set_nth_app in Hws1.
    assert (Hws1' : workers s1 = (pre ++ [WDone]) ++ rest)
      by (rewrite <- app_assoc; exact Hws1).
    destruct (IH (pre ++ [WDone]) s1 Hp1 Hc1 Hws1')
      as (s2 & Hrun2 & Hws2 & Hp2 & Hc2 & Hg2 & Hb2 & Ho2).
    rewrite length_app, Nat.add_1_r in Hrun2.
    exists s2. rewrite run_app, Hrun1.
    rewrite <- app_assoc in Hws2.
    repeat split; try assumption; congruence.
Qed.

(** The rest of [Start], once every goroutine has returned. *)
Lemma orchestrator_finishes (s : State T) :
  inv_orch s -> panicked s = false -> cancelled s = true ->
  gen s = GDone -> bat s = BDone ->
  forallb isWDone (workers s) = true ->
  exists s1, run e (orchExit (orch s)) s = Some s1 /\ returned s1 = true.
Proof.
  intros Hinv Hp Hc Hg Hb Hall.
  destruct s as [c p dc dcl bc bcl g cnt b bt ws o log out gn en em].
  unfold inv_orch in Hinv. cbn in *. subst c p g b.
  destruct o; cbn;
    repeat match goal with
    | H : _ /\ _ |- _ => destruct H
    end; subst; cbn; rewrite ?Hall; cbn;
    eexists; split; reflexivity.
Qed.

Lemma all_done (ws : list (WorkerPC T)) :
  forallb isWDone (map (fun _ => @WDone T) ws) = true.
Proof. induction ws; cbn; auto. Qed.
End Leaving.

(** X10: on a configuration that [time.NewTicker] and [make] accept (a
    positive production rate and batch timeout, a batch size that is not
    negative and whose envelopes take at most [maxAlloc] bytes), from every
    state that a run reaches, the schedule [shutdownFrom] (the context is
    cancelled, the generator, the batcher and each worker take the
    cancellation at their next [select], whatever the queues hold, and
    [PublishBatch] and [Close] return) makes [Start] return: no state of
    the pipeline is a deadlock. *)
Theorem shutdown_possible {T : Type} {ES : EnvelopeSize T} (e : Engine T)
        (tr : list Event)
        (s : State T) :
  0 < ProductionRate (config e) -> 0 <= BatchSize (config e) ->
  sizeofSensorData T * BatchSize (config e) <= maxAlloc ->
  0 < BatchTimeout (config e) ->
  run e tr (init e) = Some s ->
  exists s', run e (shutdownFrom s) s = Some s' /\ returned s' = true.
Proof.
  intros HR HS HF HT Hrun.
  pose proof (never_panics e HR HS HF HT tr s Hrun) as Hp.
  unfold shutdownFrom.
  set (s0 := set_cancelled true s).
  assert (H0 : run e [EvCancel] s = Some s0).
  { cbn. unfold step. rewrite Hp. reflexivity. }
  destruct (generator_leaves e HR s0 Hp eq_refl)
    as (s1 & R1 & Hg1 & Hp1 & Hc1 & Hb1 & Hbt1 & Hw1 & Ho1).
  destruct (batcher_leaves e HS HF HT s1 Hp1 Hc1)
    as (s2 & R2 & Hb2 & Hp2 & Hc2 & Hg2 & Hw2 & Ho2).
  destruct (workers_leave e (workers s) [] s2 Hp2 Hc2)
    as (s3 & R3 & Hw3 & Hp3 & Hc3 & Hg3 & Hb3 & Ho3).
  { rewrite Hw2, Hw1. reflexivity. }
  cbn [List.length app] in R3, Hw3.
  rewrite Hb1, Hbt1 in R2.
  assert (R : run e ([EvCancel] ++ genExit (gen s) ++
                     batExit (bat s) (batch s) ++ workersExit 0 (workers s))
                  s = Some s3).
  { rewrite run_app, H0, run_app. change (gen s) with (gen s0).
    rewrite R1, run_app. change (bat s0) with (bat s) in R2.
    change (batch s0) with (batch s) in R2. rewrite R2. exact R3. }
  assert (Hreach : run e (tr ++ [EvCancel] ++ genExit (gen s) ++
                          batExit (bat s) (batch s) ++
                          workersExit 0 (workers s))
                       (init e) = Some s3).
  { rewrite run_app, Hrun. exact R. }
  destruct (inv_shutdown_run e _ s3 Hreach) as (Hinv & _).
  destruct (orchestrator_finishes e s3 Hinv Hp3 Hc3)
    as (s4 & R4 & Hret).
  - congruence.
  - congruence.
  - rewrite Hw3. apply all_done.
  - exists s4. split; [| exact Hret].
    replace ([EvCancel] ++ genExit (gen s) ++ batExit (bat s) (batch s) ++
             workersExit 0 (workers s) ++ orchExit (orch s))
      with (([EvCancel] ++ genExit (gen s) ++ batExit (bat s) (batch s) ++
             workersExit 0 (workers s)) ++ orchExit (orch s))
      by (rewrite <- !app_assoc; reflexivity).
    rewrite run_app, R.
    replace (orch s) with (orch s3)
      by (rewrite Ho3, Ho2, Ho1; reflexivity).
    exact R4.
Qed.

(** X10 on a run that stops with the generator waiting on a full
    [dataChan], the batcher on a full [batchChan] and the worker inside
    [PublishBatch]. *)
Lemma shutdown_possible_witness :
  exists s s',
    run blockedEngine blockedRun (init blockedEngine) = Some s /\
    len (dataChan s) = 100 /\ len (batchChan s) = 10 /\
    step blockedEngine EvGenSend s = None /\
    step blockedEngine EvBatSend s = None /\
    run blockedEngine (shutdownFrom s) s = Some s' /\ returned s' = true.
Proof.
  eexists.
  assert (H : run blockedEngine blockedRun (init blockedEngine) = Some _)
    by (vm_compute; reflexivity).
  destruct (shutdown_possible blockedEngine blockedRun _
              ltac:(reflexivity) ltac:(discriminate)
              ltac:(vm_compute; discriminate) ltac:(reflexivity) H)
    as (s' & Hrun & Hret).
  exists s'. split; [exact H |].
  split; [reflexivity |]. split; [reflexivity |].
  split; [vm_compute; reflexivity |]. split; [vm_compute; reflexivity |].
  split; assumption.
Defined.

(** * Configuration files and presets *)

(** ** The presets *)

(** X11: on [DefaultConfig], [HighThroughputConfig] and [LowLatencyConfig]
    no run of [Start] panics, as many workers are started as the preset
    asks for, and every batch sent on [batchChan] has between one envelope
    and the preset's batch size. *)
Theorem presets_run_safely {T : Type} {ES : EnvelopeSize T} (e : Engine T)
        (tr : list Event)
        (s : State T) :
  In (config e) [DefaultConfig; HighThroughputConfig; LowLatencyConfig] ->
  run e tr (init e) = Some s ->
  panicked s = false /\
  List.length (workers s) = Z.to_nat (MaxWorkers (config e)) /\
  (0 < List.length (workers s))%nat /\
  Forall (fun b => 1 <= len b <= BatchSize (config e)) (emitted s).
Proof.
  intros Hin Hrun.
  assert (Hcfg : 0 < ProductionRate (config e) /\
                 1 <= BatchSize (config e) <= 1000 /\
                 0 < BatchTimeout (config e) /\
                 1 <= MaxWorkers (config e)).
  { cbn in Hin. destruct Hin as [H | [H | [H | []]]]; rewrite <- H;
      cbn; unfold Millisecond; lia. }
  destruct Hcfg as (HR & [HS HS1] & HT & HW).
  assert (HS0 : 0 <= BatchSize (config e)) by lia.
  assert (HF : sizeofSensorData T * BatchSize (config e) <= maxAlloc).
  { pose proof (sizeofSensorData_min (T:=T)) as Hmin.
    pose proof (sizeofSensorData_max (T:=T)) as Hmax.
    unfold maxAlloc.
    apply Z.le_trans with (2 ^ 16 * 1000); [| lia].
    apply Z.mul_le_mono_nonneg; lia. }
  destruct (inv_shutdown_run e tr s Hrun) as (_ & _ & _ & Hlen & _).
  split; [exact (never_panics e HR HS0 HF HT tr s Hrun) |].
  split; [exact Hlen |].
  split; [rewrite Hlen; lia |].
  exact (proj1 (inv_sizes_run e HS tr s Hrun)).
Qed.

(** X11 on the default preset, after three envelopes have reached the
    batcher. *)
Lemma presets_run_safely_witness :
  exists s,
    run defaultEngine defaultRun (init defaultEngine) = Some s /\
    panicked s = false /\
    List.length (workers s) = Z.to_nat (MaxWorkers (config defaultEngine)) /\
    (0 < List.length (workers s))%nat /\
    Forall (fun b => 1 <= len b <= BatchSize (config defaultEngine))
           (emitted s).
Proof.
  eexists. split; [vm_compute; reflexivity |].
  apply (presets_run_safely defaultEngine defaultRun).
  - left. reflexivity.
  - vm_compute. reflexivity.
Defined.

Section ConfigFileProps.
Variable Sscanf_f : string -> result float.
Variable float64 : Z -> float.
Variable Sin : float -> float.
Variable ParseDuration : string -> result Duration.
Variable ReadFile : string -> result string.
Variable Unmarshal : string -> result ConfigFile.

(** ** Seeders from a configuration *)

(** The two outcomes of [CreateSeeder]. *)
Lemma CreateSeeder_cases (c : ConfigFile) (now : Time) :
  (In (sc_Type (cf_Seeder c)) seederTypes /\
   exists sd, CreateSeeder Sscanf_f float64 Sin c now = Ok sd) \/
  (~ In (sc_Type (cf_Seeder c)) seederTypes /\
   CreateSeeder Sscanf_f float64 Sin c now =
   Err ("unknown seeder type: " ++ sc_Type (cf_Seeder c))).
Proof.
  unfold CreateSeeder, seederTypes.
  destruct (String.eqb_spec (sc_Type (cf_Seeder c)) "time") as [E | N1];
    [left; split; [rewrite E; cbn; auto | eexists; reflexivity] |].
  destruct (String.eqb_spec (sc_Type (cf_Seeder c)) "random") as [E | N2];
    [left; split; [rewrite E; cbn; auto | eexists; reflexivity] |].
  destruct (String.eqb_spec (sc_Type (cf_Seeder c)) "linear") as [E | N3];
    [left; split; [rewrite E; cbn; auto | eexists; reflexivity] |].
  destruct (String.eqb_spec (sc_Type (cf_Seeder c)) "normal") as [E | N4];
    [left; split; [rewrite E; cbn; auto | eexists; reflexivity] |].
  destruct (String.eqb_spec (sc_Type (cf_Seeder c)) "custom") as [E | N5];
    [left; split; [rewrite E; cbn; auto 6 | eexists; reflexivity] |].
  right. split; [| reflexivity].
  cbn. intros [H | [H | [H | [H | [H | []]]]]]; congruence.
Qed.

(** X12: [CreateSeeder] returns a seeder exactly when the seeder type is
    one of time, random, linear, normal and custom, whatever the
    parameters hold (a missing, ill-typed or unparsable parameter is
    replaced by its default); on any other type the error is
    unknown seeder type, followed by the type. *)
Theorem CreateSeeder_fails_on_unknown_type_only (c : ConfigFile)
        (now : Time) :
  ((exists sd, CreateSeeder Sscanf_f float64 Sin c now = Ok sd) <->
   In (sc_Type (cf_Seeder c)) seederTypes) /\
  (forall msg,
     CreateSeeder Sscanf_f float64 Sin c now = Err msg <->
     ~ In (sc_Type (cf_Seeder c)) seederTypes /\
     msg = ("unknown seeder type: " ++ sc_Type (cf_Seeder c))%string).
Proof.
  destruct (CreateSeeder_cases c now) as [[Hin [sd Hsd]] | [Hnin Herr]].
  - split.
    + split; [intros _; exact Hin | intros _; exists sd; exact Hsd].
    + intros msg. rewrite Hsd. split; [discriminate | tauto].
  - split.
    + rewrite Herr. split; [intros [sd H]; discriminate | tauto].
    + intros msg. rewrite Herr. split.
      * intros H. injection H as <-. split; [exact Hnin | reflexivity].
      * intros [_ ->]. reflexivity.
Qed.

(** ** The default configuration file *)

(** X13: where [time.ParseDuration] reads 100ms and 500ms as these
    durations, [DefaultConfigFile] converts to [DefaultConfig], and its
    seeder is the time seeder that [CreateSeeder] makes when no parameter
    is given at all: the parameters of the default file are the defaults
    of the code. *)
Theorem DefaultConfigFile_is_DefaultConfig (now : Time) :
  ParseDuration "100ms" = Ok (100 * Millisecond) ->
  ParseDuration "500ms" = Ok (500 * Millisecond) ->
  ToEngineConfig ParseDuration (cf_Engine DefaultConfigFile)
  = Ok DefaultConfig /\
  CreateSeeder Sscanf_f float64 Sin DefaultConfigFile now
  = Ok (TimeSeeder 1.0 0.1 0.0) /\
  CreateSeeder Sscanf_f float64 Sin DefaultConfigFile now
  = CreateSeeder Sscanf_f float64 Sin
      (mkConfigFile (cf_Engine DefaultConfigFile)
                    (mkSeederConfig "time" [] None)
                    (cf_Output DefaultConfigFile)) now.
Proof.
  intros H1 H5. split; [| split].
  - unfold ToEngineConfig. cbn. rewrite H1, H5. reflexivity.
  - reflexivity.
  - reflexivity.
Qed.

(** ** Engines from a configuration file *)

(** X14: [CreateEngineFromConfig] returns an engine exactly when the file
    is read and decoded, both durations parse and the seeder type is known;
    the engine then has the batch size and the worker count of the file
    unchanged, whatever they are. Every error it returns names the stage
    that failed. *)
Theorem CreateEngineFromConfig_stages {T : Type} (filename : string)
        (fn : float -> Time -> T) (now : Time) :
  (forall e sd,
     CreateEngineFromConfig Sscanf_f float64 Sin ParseDuration ReadFile
                            Unmarshal filename fn now = Ok (e, sd) <->
     exists data cf productionRate batchTimeout,
       ReadFile filename = Ok data /\ Unmarshal data = Ok cf /\
       ParseDuration (ec_ProductionRate (cf_Engine cf)) = Ok productionRate /\
       ParseDuration (ec_BatchTimeout (cf_Engine cf)) = Ok batchTimeout /\
       CreateSeeder Sscanf_f float64 Sin cf now = Ok sd /\
       e = NewEngine (mkConfig productionRate (ec_BatchSize (cf_Engine cf))
                               batchTimeout (ec_MaxWorkers (cf_Engine cf)))
                     fn) /\
  (forall msg,
     CreateEngineFromConfig Sscanf_f float64 Sin ParseDuration ReadFile
                            Unmarshal filename fn now = Err msg ->
     exists m,
       (msg = "failed to load config: failed to read config file: " ++ m \/
        msg = "failed to load config: failed to parse config file: " ++ m \/
        msg = "failed to convert engine config: invalid production_rate: "
              ++ m \/
        msg = "failed to convert engine config: invalid batch_timeout: "
              ++ m \/
        msg = "failed to create seeder: unknown seeder type: " ++ m)%string).
Proof.
  unfold CreateEngineFromConfig, LoadConfigFromFile, ToEngineConfig.
  split.
  - intros e sd. split.
    + destruct (ReadFile filename) as [data | m] eqn:Hr; [| discriminate].
      destruct (Unmarshal data) as [cf | m] eqn:Hu; [| discriminate].
      destruct (ParseDuration (ec_ProductionRate (cf_Engine cf)))
        as [pr | m] eqn:Hpr; [| discriminate].
      destruct (ParseDuration (ec_BatchTimeout (cf_Engine cf)))
        as [bt | m] eqn:Hbt; [| discriminate].
      destruct (CreateSeeder Sscanf_f float64 Sin cf now)
        as [sd' | m] eqn:Hsd; [| discriminate].
      intros H. injection H as <- <-.
      exists data, cf, pr, bt. repeat split; try assumption; reflexivity.
    + intros (data & cf & pr & bt & Hr & Hu & Hpr & Hbt & Hsd & ->).
      rewrite Hr, Hu, Hpr, Hbt, Hsd. reflexivity.
  - intros msg.
    destruct (ReadFile filename) as [data | m].
    2:{ intros H. injection H as <-. exists m. left. reflexivity. }
    destruct (Unmarshal data) as [cf | m].
    2:{ intros H. injection H as <-. exists m. right. left. reflexivity. }
    destruct (ParseDuration (ec_ProductionRate (cf_Engine cf))) as [pr | m].
    2:{ intros H. injection H as <-. exists m. do 2 right. left.
        reflexivity. }
    destruct (ParseDuration (ec_BatchTimeout (cf_Engine cf))) as [bt | m].
    2:{ intros H. injection H as <-. exists m. do 3 right. left.
        reflexivity. }
    destruct (CreateSeeder_cases cf now) as [[_ [sd Hsd]] | [_ Herr]].
    + rewrite Hsd. discriminate.
    + rewrite Herr. intros H. injection H as <-.
      exists (sc_Type (cf_Seeder cf)). do 4 right. reflexivity.
Qed.
End ConfigFileProps.

(** X13 with the two durations parsed as Go parses them. *)
Lemma DefaultConfigFile_is_DefaultConfig_witness :
  ToEngineConfig parseDefaults (cf_Engine DefaultConfigFile)
  = Ok DefaultConfig /\
  CreateSeeder (fun _ => Err "no float") (fun _ => 0%float) (fun x => x)
               DefaultConfigFile 0
  = Ok (TimeSeeder 1.0 0.1 0.0).
Proof.
  destruct (DefaultConfigFile_is_DefaultConfig
              (fun _ => Err "no float") (fun _ => 0%float) (fun x => x)
              parseDefaults 0 eq_refl eq_refl) as (H1 & H2 & _).
  split; [exact H1 | exact H2].
Defined.

(** * The test doubles *)

(** ** The seeder of the tests *)

Lemma TestSeeder_Generate_at (vs : list float) (p : nat) :
  (0 < List.length vs)%nat -> len vs < 2 ^ 63 -> (p <= List.length vs)%nat ->
  TestSeeder_Generate (mkTestSeeder vs (Z.of_nat p)) =
  Some (nth (p mod List.length vs) vs 0%float,
        mkTestSeeder vs (Z.of_nat (p mod List.length vs + 1))).
Proof.
  intros Hpos Hlen Hp. unfold TestSeeder_Generate, len in *. cbn [values index].
  assert (Hq : (p mod List.length vs < List.length vs)%nat)
    by (apply Nat.mod_upper_bound; lia).
  assert (Hidx : (if Z.of_nat (List.length vs) <=? Z.of_nat p
                  then 0 else Z.of_nat p)
                 = Z.of_nat (p mod List.length vs)).
  { destruct (Z.leb_spec (Z.of_nat (List.length vs)) (Z.of_nat p)).
    - assert (p = List.length vs) by lia. subst p.
      rewrite Nat.Div0.mod_same. reflexivity.
    - rewrite Nat.mod_small by lia. reflexivity. }
  rewrite Hidx.
  destruct (Z.ltb_spec (Z.of_nat (p mod List.length vs)) 0); [lia |].
  rewrite Nat2Z.id.
  destruct (nth_error vs (p mod List.length vs)) as [val |] eqn:Hnth.
  - rewrite (nth_error_nth _ _ _ Hnth).
    rewrite wrap64_small by lia.
    do 3 f_equal. lia.
  - apply nth_error_None in Hnth. lia.
Qed.

Lemma generateN_from (vs : list float) :
  (0 < List.length vs)%nat -> len vs < 2 ^ 63 ->
  forall (k p : nat),
    (p <= List.length vs)%nat ->
    generateN k (mkTestSeeder vs (Z.of_nat p)) =
    Some (map (fun j => nth ((p + j) mod List.length vs) vs 0%float)
              (seq 0 k),
          mkTestSeeder vs
            (Z.of_nat match k with
                      | O => p
                      | S k' => (p + k') mod List.length vs + 1
                      end)).
Proof.
  intros Hpos Hlen. induction k as [| k IH]; intros p Hp.
  - reflexivity.
  - cbn [generateN]. rewrite (TestSeeder_Generate_at vs p Hpos Hlen Hp).
    assert (Hq : (p mod List.length vs < List.length vs)%nat)
      by (apply Nat.mod_upper_bound; lia).
    rewrite (IH (p mod List.length vs + 1)%nat) by lia.
    cbn [seq map]. rewrite Nat.add_0_r.
    rewrite <- seq_shift, map_map.
    f_equal. f_equal.
    + f_equal. apply map_ext. intros j.
      replace (p mod List.length vs + 1 + j)%nat
        with (p mod List.length vs + (1 + j))%nat by lia.
      rewrite Nat.Div0.add_mod_idemp_l.
      replace (p + S j)%nat with (p + (1 + j))%nat by lia. reflexivity.
    + f_equal. f_equal. clear IH.
      destruct k as [| k']; [rewrite Nat.add_0_r; reflexivity |].
      replace (p mod List.length vs + 1 + k')%nat
        with (p mod List.length vs + (1 + k'))%nat by lia.
      rewrite Nat.Div0.add_mod_idemp_l.
      replace (p + S k')%nat with (p + (1 + k'))%nat by lia. reflexivity.
Qed.

(** X15: a [TestSeeder] on a non-empty slice gives its values in order and
    starts again from the first after the last: the [j]-th call, counted
    from 0, returns [values[j mod len(values)]], and the slice is never
    changed. On an empty slice the first call panics. *)
Theorem TestSeeder_cycles (vs : list float) :
  (vs = [] -> TestSeeder_Generate (NewTestSeeder vs) = None) /\
  (vs <> [] -> len vs < 2 ^ 63 ->
   forall k : nat,
   exists t',
     generateN k (NewTestSeeder vs) =
     Some (map (fun j => nth (j mod List.length vs) vs 0%float) (seq 0 k),
           t') /\
     values t' = vs /\ 0 <= index t' <= len vs).
Proof.
  split.
  - intros ->. reflexivity.
  - intros Hne Hlen k.
    assert (Hpos : (0 < List.length vs)%nat)
      by (destruct vs; [congruence | cbn; lia]).
    unfold NewTestSeeder. change 0 with (Z.of_nat 0).
    rewrite (generateN_from vs Hpos Hlen k 0%nat) by lia.
    eexists. split; [reflexivity |]. cbn [values index]. split; [reflexivity |].
    unfold len. destruct k as [| k']; [lia |].
    pose proof (Nat.mod_upper_bound (0 + k') (List.length vs)). lia.
Qed.

(** X15 on a seeder of three values: seven calls. *)
Lemma TestSeeder_cycles_witness :
  exists t',
    generateN 7 threeValues =
    Some ([0.1; 0.2; 0.3; 0.1; 0.2; 0.3; 0.1]%float, t') /\
    values t' = [0.1; 0.2; 0.3]%float /\ 0 <= index t' <= 3.
Proof.
  assert (Hne : [0.1; 0.2; 0.3]%float <> []) by discriminate.
  assert (Hlen : len [0.1; 0.2; 0.3]%float < 2 ^ 63) by (vm_compute; reflexivity).
  exact (proj2 (TestSeeder_cycles [0.1; 0.2; 0.3]%float) Hne Hlen 7%nat).
Defined.

(** ** The publisher of the tests *)

Lemma wrap64_add_l (a b : Z) : wrap64 (wrap64 a + b) = wrap64 (a + b).
Proof.
  unfold wrap64.
  replace ((a + 2 ^ 63) mod 2 ^ 64 - 2 ^ 63 + b + 2 ^ 63)
    with ((a + 2 ^ 63) mod 2 ^ 64 + b) by lia.
  rewrite Z.add_mod_idemp_l by lia.
  replace (a + 2 ^ 63 + b) with (a + b + 2 ^ 63) by lia. reflexivity.
Qed.

Lemma len_concat_ge {A : Type} (bs : list (list A)) :
  Forall (fun b => 1 <= len b) bs -> len bs <= len (List.concat bs).
Proof.
  induction 1 as [| b bs Hb _ IH]; cbn [List.concat].
  - unfold len; cbn; lia.
  - rewrite len_cons, len_app. lia.
Qed.

Section Mock.
Context {T : Type} {ES : EnvelopeSize T}.

Lemma mockCalls_from (log : list (SinkCall T)) :
  forall (m : MockPublisher T) (k : Z),
    batchCalled m = wrap64 k ->
    published (fold_left mockCall log m) = published m /\
    publishCalled (fold_left mockCall log m) = publishCalled m /\
    batches (fold_left mockCall log m) = batches m ++ delivered log /\
    batchCalled (fold_left mockCall log m) = wrap64 (k + len (delivered log)) /\
    closed (fold_left mockCall log m) = closed m || existsb isClose log.
Proof.
  induction log as [| c log IH]; intros m k Hk.
  - cbn. rewrite app_nil_r, orb_false_r. unfold len; cbn.
    rewrite Z.add_0_r. auto.
  - cbn [fold_left delivered existsb].
    destruct c as [w b | w err | err]; cbn [mockCall isClose].
    + destruct (IH (fst (MockPublisher_PublishBatch m b)) (k + 1))
        as (H1 & H2 & H3 & H4 & H5).
      { cbn. rewrite Hk. apply wrap64_succ. }
      rewrite H1, H2, H3, H4, H5. cbn [MockPublisher_PublishBatch fst
        published publishCalled batches closed].
      rewrite <- app_assoc, len_cons. cbn [app].
      repeat split; try reflexivity. f_equal. lia.
    + destruct (IH m k Hk) as (H1 & H2 & H3 & H4 & H5).
      rewrite H1, H2, H3, H4, H5. auto.
    + destruct (IH (fst (MockPublisher_Close m)) k Hk)
        as (H1 & H2 & H3 & H4 & H5).
      rewrite H1, H2, H3, H4, H5. cbn [MockPublisher_Close fst
        published publishCalled batches closed].
      rewrite orb_true_r. auto.
Qed.

Lemma total_from (bs : list (Batch T)) :
  forall (total k : Z),
    total = wrap64 k ->
    fold_left (fun total batch => wrap64 (total + len batch)) bs total
    = wrap64 (k + len (List.concat bs)).
Proof.
  induction bs as [| b bs IH]; intros total k ->.
  - cbn. unfold len; cbn. rewrite Z.add_0_r. reflexivity.
  - cbn [fold_left List.concat]. rewrite (IH _ (k + len b)).
    + rewrite len_app. f_equal. lia.
    + apply wrap64_add_l.
Qed.

Lemma errorLines_mock (log : list (SinkCall T)) :
  Forall mockAnswer log -> errorLines log = [].
Proof.
  induction 1 as [| c log Hc _ IH]; [reflexivity |].
  destruct c as [w b | w [m |] | err]; cbn in *; try exact IH.
  discriminate.
Qed.
End Mock.

(** X16: an engine with one worker whose publisher is the [MockPublisher],
    once [Start] has returned: [Start] returned nil and nothing was
    printed; the mock is closed; the batches it recorded are, in order and
    without gap or repetition, a first part of the envelopes that were
    generated, each batch of at least one envelope and at most the larger
    of 1 and [BatchSize]; [GetBatchCount] is their number and
    [GetTotalDataPoints] the number of their envelopes. *)
Theorem mock_records_the_run {T : Type} {ES : EnvelopeSize T} (e : Engine T)
        (tr : list Event)
        (s : State T) :
  MaxWorkers (config e) = 1 ->
  run e tr (init e) = Some s ->
  returned s = true ->
  Forall mockAnswer (sinkLog s) ->
  len (generated s) < 2 ^ 63 ->
  orch s = OReturned None /\
  stdout s = [] /\
  IsClosed (mockAfter (sinkLog s)) = true /\
  GetPublishedCount (mockAfter (sinkLog s)) = 0 /\
  (exists rest,
     generated s = List.concat (batches (mockAfter (sinkLog s))) ++ rest) /\
  Forall (fun b => 1 <= len b <= maxBatch e)
         (batches (mockAfter (sinkLog s))) /\
  GetBatchCount (mockAfter (sinkLog s))
  = len (batches (mockAfter (sinkLog s))) /\
  GetTotalDataPoints (mockAfter (sinkLog s))
  = len (List.concat (batches (mockAfter (sinkLog s)))).
Proof.
  intros HW Hrun Hret Hmock Hlen.
  destruct (inv_shutdown_run e tr s Hrun) as (Ho & _ & Hbd & Hnw & _).
  pose proof (inv_batches_run e tr s Hrun) as Hb.
  pose proof (inv_data_run e tr s Hrun) as Hd.
  destruct (inv_gen_run e tr s Hrun) as (_ & _ & Hg).
  destruct (inv_sizes_any_run e tr s Hrun) as [Hsz _].
  destruct (inv_stdout_run e tr s Hrun) as [_ Hout].
  unfold returned in Hret. unfold inv_orch in Ho.
  destruct (orch s) as [| | | | | r] eqn:Horch; try discriminate.
  destruct Ho as (_ & Hdc & Hbc & Hall & pre & err & Hlog & Hpre & _ & Hr).
  (* the single worker has returned *)
  rewrite HW in Hnw. unfold inv_batches in Hb.
  destruct (workers s) as [| w [| w' ws]]; try discriminate. clear Hnw.
  cbn in Hall. rewrite andb_true_r in Hall.
  destruct w; try discriminate. cbn [inHand app] in Hb.
  specialize (Hout _ eq_refl). cbn [toPrint] in Hout.
  rewrite app_nil_r in Hout.
  (* the batcher and the generator have returned *)
  specialize (Hbd Hbc). unfold inv_data in Hd. rewrite Hbd in Hd.
  destruct Hd as [lost Hd].
  assert (Hgen : exists tl, generated s = enqueued s ++ tl).
  { destruct (gen s); try (exists []; rewrite app_nil_r; exact Hg).
    - eexists; exact Hg.
    - destruct Hg as (tl & Hg & _). exists tl. exact Hg. }
  destruct Hgen as [tl Hgen].
  (* what the mock has recorded *)
  destruct (mockCalls_from (sinkLog s) NewMockPublisher 0 eq_refl)
    as (Hp & Hpc & Hbs & Hbcall & Hcl).
  fold (mockAfter (sinkLog s)) in Hp, Hpc, Hbs, Hbcall, Hcl.
  cbn [NewMockPublisher published publishCalled batches closed app orb]
    in Hp, Hpc, Hbs, Hcl.
  assert (Hall' : generated s =
                  List.concat (delivered (sinkLog s)) ++
                  (List.concat (batchChan s) ++ lost ++ dataChan s ++ tl)).
  { rewrite Hgen, Hd, Hb, concat_app. rewrite <- !app_assoc. reflexivity. }
  assert (Hdel : Forall (fun b => 1 <= len b <= maxBatch e)
                        (delivered (sinkLog s))).
  { rewrite Hb in Hsz. apply Forall_app in Hsz. apply Hsz. }
  assert (Hn : len (delivered (sinkLog s))
               <= len (List.concat (delivered (sinkLog s)))).
  { apply len_concat_ge. eapply Forall_impl; [| exact Hdel].
    cbv beta. intros b Hb'. lia. }
  assert (Hn' : len (List.concat (delivered (sinkLog s)))
                <= len (generated s)).
  { rewrite Hall', len_app.
    pose proof (len_nonneg (List.concat (batchChan s) ++ lost ++
                            dataChan s ++ tl)). lia. }
  pose proof (len_nonneg (delivered (sinkLog s))) as Hn0.
  (* the answer of Close *)
  assert (Herr : err = None).
  { rewrite Hlog in Hmock. apply Forall_app in Hmock.
    destruct Hmock as [_ Hm]. inversion Hm as [| c l Hc _]. exact Hc. }
  split; [rewrite Hr, Herr; reflexivity |].
  split; [rewrite <- Hout; apply errorLines_mock; exact Hmock |].
  split.
  { unfold IsClosed. rewrite Hcl, Hlog, existsb_app. cbn.
    apply orb_true_r. }
  split; [unfold GetPublishedCount; exact Hpc |].
  split; [rewrite Hbs; eexists; exact Hall' |].
  split; [rewrite Hbs; exact Hdel |].
  split.
  - unfold GetBatchCount. rewrite Hbcall, Hbs. cbn [Z.add].
    apply wrap64_small. lia.
  - unfold GetTotalDataPoints. rewrite Hp, Hbs.
    rewrite (total_from (delivered (sinkLog s)) (len (@nil (SensorData T))) 0
                        eq_refl).
    cbn [Z.add]. apply wrap64_small. lia.
Qed.

(** X16 on the run of seven envelopes. *)
Lemma mock_records_the_run_witness :
  exists s,
    run testEngine sevenDrained (init testEngine) = Some s /\
    GetBatchCount (mockAfter (sinkLog s)) = 3 /\
    GetTotalDataPoints (mockAfter (sinkLog s)) = 7.
Proof.
  eexists. split; [vm_compute; reflexivity |].
  refine ((fun H => conj (eq_trans (proj1 (proj2 (proj2 (proj2 (proj2 (proj2
            (proj2 H))))))) _)
                         (eq_trans (proj2 (proj2 (proj2 (proj2 (proj2 (proj2
            (proj2 H))))))) _))
            (mock_records_the_run testEngine sevenDrained _ _ _ _ _ _)).
  - vm_compute. reflexivity.
  - vm_compute. reflexivity.
  - reflexivity.
  - vm_compute. reflexivity.
  - vm_compute. reflexivity.
  - vm_compute. repeat constructor.
  - vm_compute. reflexivity.
Defined.

(** * The publishers *)

Section PublisherProps.
Context {T : Type}.
Variable Marshal : SensorData T -> result bytes.

(** The envelopes of [data] are marshalled to [ps], one by one. *)
Lemma GRPC_marshalFrom_ok (data : list (SensorData T)) :
  forall (ps done rest : list bytes),
    Forall2 (fun d p => Marshal d = Ok p) data ps ->
    List.length rest = List.length data ->
    GRPC_marshalFrom Marshal (List.length done) data (done ++ rest)
    = Ok (done ++ ps).
Proof.
  induction data as [| d data IH]; intros ps done rest Hall Hlen.
  - inversion Hall; subst. destruct rest; [reflexivity | discriminate].
  - inversion Hall as [| d' p data' ps' Hd Hrest]; subst.
    destruct rest as [| y rest]; [discriminate |].
    cbn [GRPC_marshalFrom]. rewrite Hd, set_nth_app.
    replace (done ++ p :: rest) with ((done ++ [p]) ++ rest)
      by (rewrite <- app_assoc; reflexivity).
    replace (S (List.length done)) with (List.length (done ++ [p]))
      by (rewrite length_app; cbn; lia).
    rewrite (IH ps' (done ++ [p]) rest Hrest) by (cbn in Hlen; lia).
    rewrite <- app_assoc. reflexivity.
Qed.

Lemma GRPC_marshalFrom_err (pre : list (SensorData T)) :
  forall (i : nat) (d : SensorData T) (post : list (SensorData T))
         (m : string) (payloads : list bytes),
    Forall (fun x => exists p, Marshal x = Ok p) pre ->
    Marshal d = Err m ->
    GRPC_marshalFrom Marshal i (pre ++ d :: post) payloads = Err m.
Proof.
  induction pre as [| x pre IH]; intros i d post m payloads Hpre Hd.
  - cbn. rewrite Hd. reflexivity.
  - inversion Hpre as [| x' pre' [p Hx] Hrest]; subst.
    cbn. rewrite Hx. apply IH; assumption.
Qed.

(** X17: [GenericGRPCPublisher.PublishBatch] sends all or nothing. When
    every envelope is marshalled, the client is called once, with the
    payloads of the envelopes in their order, and its error is returned;
    when an envelope is not marshalled, the client is not called and the
    error is that of the first such envelope. *)
Theorem GRPC_PublishBatch_all_or_nothing (send : list bytes -> error)
        (data : list (SensorData T)) :
  (forall ps,
     Forall2 (fun d p => Marshal d = Ok p) data ps ->
     GRPC_PublishBatch Marshal send data = ([ps], send ps)) /\
  (forall pre d post m,
     data = pre ++ d :: post ->
     Forall (fun x => exists p, Marshal x = Ok p) pre ->
     Marshal d = Err m ->
     GRPC_PublishBatch Marshal send data = ([], Some m)).
Proof.
  unfold GRPC_PublishBatch. cbv zeta. split.
  - intros ps Hall.
    pose proof (GRPC_marshalFrom_ok data ps []
                  (repeat [] (List.length data)) Hall
                  (repeat_length _ _)) as H.
    cbn [app List.length] in H.
    match goal with
    | |- context [GRPC_marshalFrom ?f ?i ?d ?p] =>
      replace (GRPC_marshalFrom f i d p) with (Ok (A:=list bytes) ps)
        by (symmetry; exact H)
    end.
    reflexivity.
  - intros pre d post m -> Hpre Hd.
    rewrite (GRPC_marshalFrom_err pre 0 d post m _ Hpre Hd). reflexivity.
Qed.

(** The messages built from [data], from index [i] on. *)
Lemma Kafka_messagesFrom_ok (now : nat -> Time) (data : list (SensorData T)) :
  forall (vs : list bytes) (done rest : list Message),
    Forall2 (fun d v => Marshal d = Ok v) data vs ->
    List.length rest = List.length data ->
    exists msgs,
      Kafka_messagesFrom Marshal now (List.length done) data (done ++ rest)
      = Ok (done ++ msgs) /\
      map msg_Key msgs = map (fun d => String.list_byte_of_string (ID d)) data /\
      map msg_Value msgs = vs /\
      map msg_Time msgs = map now (seq (List.length done) (List.length data)).
Proof.
  induction data as [| d data IH]; intros vs done rest Hall Hlen.
  - inversion Hall; subst. destruct rest; [| discriminate].
    exists []. repeat split; reflexivity.
  - inversion Hall as [| d' v data' vs' Hd Hrest]; subst.
    destruct rest as [| y rest]; [discriminate |].
    cbn [Kafka_messagesFrom]. rewrite Hd, set_nth_app.
    set (msg := mkMessage (String.list_byte_of_string (ID d)) v
                          (now (List.length done))).
    replace (done ++ msg :: rest) with ((done ++ [msg]) ++ rest)
      by (rewrite <- app_assoc; reflexivity).
    replace (S (List.length done)) with (List.length (done ++ [msg]))
      by (rewrite length_app; cbn; lia).
    destruct (IH vs' (done ++ [msg]) rest Hrest) as (msgs & Hm & Hk & Hv & Ht).
    { cbn in Hlen; lia. }
    exists (msg :: msgs). rewrite Hm, <- app_assoc. cbn [app map].
    rewrite Hk, Hv, Ht. repeat split; try reflexivity.
    rewrite length_app. cbn [List.length seq map].
    rewrite Nat.add_1_r. reflexivity.
Qed.

Lemma Kafka_messagesFrom_err (now : nat -> Time)
      (pre : list (SensorData T)) :
  forall (i : nat) (d : SensorData T) (post : list (SensorData T))
         (m : string) (messages : list Message),
    Forall (fun x => exists v, Marshal x = Ok v) pre ->
    Marshal d = Err m ->
    Kafka_messagesFrom Marshal now i (pre ++ d :: post) messages = Err m.
Proof.
  induction pre as [| x pre IH]; intros i d post m messages Hpre Hd.
  - cbn. rewrite Hd. reflexivity.
  - inversion Hpre as [| x' pre' [v Hx] Hrest]; subst.
    cbn. rewrite Hx. apply IH; assumption.
Qed.

(** X18: [GenericKafkaPublisher.PublishBatch] writes all or nothing. When
    every envelope is marshalled, the writer is called once with one
    message for each envelope, in their order: the key is the identifier
    of the envelope, the value its payload, the time the clock as read for
    it; the error of the writer is returned. When an envelope is not
    marshalled, the writer is not called and the error is that of the first
    such envelope. *)
Theorem Kafka_PublishBatch_keys_are_ids (write : list Message -> error)
        (now : nat -> Time) (data : list (SensorData T)) :
  (forall vs,
     Forall2 (fun d v => Marshal d = Ok v) data vs ->
     exists msgs,
       Kafka_PublishBatch Marshal write now data = ([msgs], write msgs) /\
       map msg_Key msgs = map (fun d => String.list_byte_of_string (ID d)) data /\
       map msg_Value msgs = vs /\
       map msg_Time msgs = map now (seq 0 (List.length data))) /\
  (forall pre d post m,
     data = pre ++ d :: post ->
     Forall (fun x => exists v, Marshal x = Ok v) pre ->
     Marshal d = Err m ->
     Kafka_PublishBatch Marshal write now data = ([], Some m)).
Proof.
  unfold Kafka_PublishBatch. cbv zeta. split.
  - intros vs Hall.
    destruct (Kafka_messagesFrom_ok now data vs []
                (repeat zeroMessage (List.length data)) Hall)
      as (msgs & Hm & Hk & Hv & Ht); [apply repeat_length |].
    cbn [app List.length] in Hm, Ht.
    exists msgs.
    match goal with
    | |- context [Kafka_messagesFrom ?f ?n ?i ?d ?p] =>
      replace (Kafka_messagesFrom f n i d p) with (Ok (A:=list Message) msgs)
        by (symmetry; exact Hm)
    end.
    repeat split; assumption.
  - intros pre d post m -> Hpre Hd.
    rewrite (Kafka_messagesFrom_err now pre 0 d post m _ Hpre Hd).
    reflexivity.
Qed.
End PublisherProps.

(** X17 on a batch of two envelopes, both marshalled. *)
Lemma GRPC_PublishBatch_all_or_nothing_witness :
  GRPC_PublishBatch marshalID (fun _ => None) twoEnvelopes
  = ([map (fun d => String.list_byte_of_string (ID d)) twoEnvelopes], None).
Proof.
  apply (proj1 (GRPC_PublishBatch_all_or_nothing marshalID (fun _ => None)
                                                 twoEnvelopes)).
  repeat constructor.
Defined.

(** X18 on a batch of two envelopes, both marshalled. *)
Lemma Kafka_PublishBatch_keys_are_ids_witness :
  exists msgs,
    Kafka_PublishBatch marshalID (fun _ => None) Z.of_nat twoEnvelopes
    = ([msgs], None) /\
    map msg_Key msgs
    = map (fun d => String.list_byte_of_string (ID d)) twoEnvelopes /\
    map msg_Value msgs
    = map (fun d => String.list_byte_of_string (ID d)) twoEnvelopes /\
    map msg_Time msgs = map Z.of_nat (seq 0 (List.length twoEnvelopes)).
Proof.
  apply (proj1 (Kafka_PublishBatch_keys_are_ids marshalID (fun _ => None)
                                                Z.of_nat twoEnvelopes)).
  repeat constructor.
Defined.

(** * The market seeder of the examples *)

(** Two binary64 values that are not NaN are ordered one way or the
    other. *)
Lemma SFleb_of_not_SFltb (x y : spec_float) :
  x <> S754_nan -> y <> S754_nan ->
  SFltb y x = false -> SFleb x y = true.
Proof.
  unfold SFltb, SFleb.
  destruct x as [sx | sx | | sx mx ex], y as [sy | sy | | sy my ey];
    intros Hx Hy; try congruence; cbn;
    try (destruct sx; try destruct sy; cbn; congruence).
  change (Pos.compare_cont Eq my mx) with (Pos.compare my mx).
  change (Pos.compare_cont Eq mx my) with (Pos.compare mx my).
  rewrite (Z.compare_antisym ey ex), (Pos.compare_antisym mx my).
  destruct sx, sy; try congruence;
    destruct (ey ?= ex); cbn; try congruence;
    destruct (mx ?= my)%positive; cbn; congruence.
Qed.

Lemma not_nan_spec (x : float) : is_nan x = false -> Prim2SF x <> S754_nan.
Proof.
  unfold is_nan. rewrite eqb_spec. intros H E. rewrite E in H.
  discriminate.
Qed.

Lemma leb_of_not_ltb (x y : float) :
  is_nan x = false -> is_nan y = false ->
  (y <? x)%float = false -> (x <=? y)%float = true.
Proof.
  intros Hx Hy. rewrite ltb_spec, leb_spec.
  apply SFleb_of_not_SFltb; apply not_nan_spec; assumption.
Qed.

(** X19: [MarketSeeder.Generate] returns a value between 0 and 1, or NaN
    (the two tests of the clamp are false on NaN, which is then returned
    as it is), and advances the cycle by 0.1. *)
Theorem MarketSeeder_Generate_clamped (Sin : float -> float)
        (m : MarketSeeder) (r : float) :
  (is_nan (fst (MarketSeeder_Generate Sin m r)) = true \/
   ((0 <=? fst (MarketSeeder_Generate Sin m r))%float = true /\
    (fst (MarketSeeder_Generate Sin m r) <=? 1)%float = true)) /\
  cycle (snd (MarketSeeder_Generate Sin m r)) = (cycle m + 0.1)%float.
Proof.
  unfold MarketSeeder_Generate. cbv zeta. cbn [fst snd cycle].
  split; [| reflexivity].
  set (result := (0.5 + Sin ((cycle m + 0.1) * 0.1) * 0.3 + (r - 0.5) * 0.2 +
                  Sin ((cycle m + 0.1) * 0.01) * 0.2)%float).
  destruct (result <? 0)%float eqn:Hlo.
  - right. split; reflexivity.
  - destruct (1 <? result)%float eqn:Hhi.
    + right. split; reflexivity.
    + destruct (is_nan result) eqn:Hnan; [left; reflexivity | right].
      split; apply leb_of_not_ltb; trivial.
Qed.
